(** * FlowState: the day store and the text extractor

    A shallow embedding of the two pieces of logic of the FlowState
    single-file application:

    - the day store ([loadAllDaysLocal], [saveAllDaysLocal],
      [upsertDayLocal], [readDayLocal], their Supabase-backed wrappers
      [loadAllDays], [upsertDay], [readDay], and [seedIfEmpty]);
    - the keyword extractor [simulateAIProcessing] together with the
      dashboard handler that merges its result into the current day.

    JavaScript values are modelled by the JSON fragment the store can hold;
    exceptions, [localStorage], the remote table and the console are
    threaded through a small state-and-exception monad. *)

From Stdlib Require Import Ascii String ZArith.
From Stdlib Require DecimalZ.
From stdpp Require Import gmap strings list fin_maps pretty sorting.

Local Open Scope string_scope.
Local Open Scope list_scope.
Local Open Scope Z_scope.

(* ===================================================================== *)
(** ** JavaScript values *)
(* ===================================================================== *)

Local Unset Elimination Schemes.

(** What [JSON.parse] can return and what the store is handed as a partial
    record.  Numbers are the integers; [undefined] is not a member: a
    possibly undefined result is an [option value]. *)
Inductive value :=
  | JNull
  | JBool (b : bool)
  | JNum (n : Z)
  | JStr (s : string)
  | JArr (elems : list value)
  | JObj (props : gmap string value).

Local Set Elimination Schemes.

(** The errors the store can meet. *)
Inductive exn :=
  | SyntaxError                 (* JSON.parse on a text that is not JSON *)
  | TypeError                   (* property access on null, write to a primitive *)
  | ServiceError (msg : string) (* whatever the remote client reports *).

Inductive result (A : Type) :=
  | Ok (a : A)
  | Throw (e : exn).
Arguments Ok {A} a.
Arguments Throw {A} e.

(** ToBoolean. *)
Definition truthy (v : value) : bool :=
  match v with
  | JNull => false
  | JBool b => b
  | JNum n => negb (n =? 0)
  | JStr s => negb (String.eqb s EmptyString)
  | JArr _ | JObj _ => true
  end.

(** [x || y] where [x] may be undefined. *)
Definition js_or (x : option value) (y : value) : value :=
  match x with
  | Some v => if truthy v then v else y
  | None => y
  end.

(** The characters of a string as one-character strings. *)
Fixpoint chars (s : string) : list value :=
  match s with
  | EmptyString => []
  | String c s' => JStr (String c EmptyString) :: chars s'
  end.

(** Index-keyed own properties of an array or string: "0", "1", ... *)
Definition indexed (l : list value) : gmap string value :=
  list_to_map (imap (λ i x, (pretty i, x)) l).

(** Own enumerable properties, as object spread [{...v}] copies them. *)
Definition spread (v : value) : gmap string value :=
  match v with
  | JObj m => m
  | JArr l => indexed l
  | JStr s => indexed (chars s)
  | JNull | JBool _ | JNum _ => ∅
  end.

(** [{...a, ...b}]: the properties of [b] win. *)
Definition merge (a b : value) : value := JObj (spread b ∪ spread a).

(** [Object.keys(v).length]. *)
Definition keys_length (v : value) : result nat :=
  match v with
  | JNull => Throw TypeError
  | JObj m => Ok (size m)
  | JArr l => Ok (length l)
  | JStr s => Ok (String.length s)
  | JBool _ | JNum _ => Ok 0%nat
  end.

(** A date key is the ten characters YYYY-MM-DD.  Such a key is never an
    array index, never "length", and never a name inherited from a
    prototype; the property accesses below are stated for these keys. *)
Definition is_digit (c : ascii) : bool :=
  let n := N_of_ascii c in ((48 <=? n) && (n <=? 57))%N.

Definition is_date (d : string) : bool :=
  match d with
  | String y1 (String y2 (String y3 (String y4 (String h1
      (String m1 (String m2 (String h2 (String d1 (String d2 EmptyString))))))))) =>
      is_digit y1 && is_digit y2 && is_digit y3 && is_digit y4
      && Ascii.eqb h1 "-" && is_digit m1 && is_digit m2
      && Ascii.eqb h2 "-" && is_digit d1 && is_digit d2
  | _ => false
  end.

(** The object held in a variable between [JSON.parse] and
    [JSON.stringify]: its JSON content and, when it is an array, the named
    properties assigned to it meanwhile, which [JSON.stringify] leaves out. *)
Record object := Object { json : value; named : gmap string value }.

Definition parsed (v : value) : object := Object v ∅.

(** [o[k]] for a date key [k]. *)
Definition member (o : object) (k : string) : result (option value) :=
  match json o with
  | JNull => Throw TypeError
  | JObj m => Ok (m !! k)
  | JArr _ => Ok (named o !! k)
  | JBool _ | JNum _ | JStr _ => Ok None
  end.

(** [o[k] = x] for a date key [k], in strict mode (the file is a module). *)
Definition assign (o : object) (k : string) (x : value) : result object :=
  match json o with
  | JObj m => Ok (Object (JObj (<[k:=x]> m)) (named o))
  | JArr l => Ok (Object (JArr l) (<[k:=x]> (named o)))
  | JNull | JBool _ | JNum _ | JStr _ => Throw TypeError
  end.

(* ===================================================================== *)
(** ** The world and its monad *)
(* ===================================================================== *)

(** What the next request to the remote service will do. *)
Inductive outcome :=
  | Healthy                  (* the request is served *)
  | Rejects (e : exn)        (* the promise rejects *)
  | ReturnsError (e : exn)   (* it resolves with a non-null [error] *).

(** [localStorage], the remote table [flowstate_days] (date to payload),
    the outcomes of the coming requests (none left: healthy), and what
    [console.warn] has printed. *)
Record world := World {
  localStorage : gmap string string;
  flowstate_days : gmap string value;
  network : list outcome;
  console : list (string * exn)
}.

Definition M (A : Type) : Type := world → result A * world.

#[local] Instance M_ret : MRet M := λ A a w, (Ok a, w).
#[local] Instance M_bind : MBind M := λ A B f m w,
  match m w with
  | (Ok a, w') => f a w'
  | (Throw e, w') => (Throw e, w')
  end.

Definition throw {A} (e : exn) : M A := λ w, (Throw e, w).

Definition lift {A} (r : result A) : M A := λ w, (r, w).

(** [try { body } catch (e) { handler e }] *)
Definition try_catch {A} (body : M A) (handler : exn → M A) : M A := λ w,
  match body w with
  | (Ok a, w') => (Ok a, w')
  | (Throw e, w') => handler e w'
  end.

Definition getItem (k : string) : M (option string) := λ w,
  (Ok (localStorage w !! k), w).

Definition setItem (k v : string) : M unit := λ w,
  (Ok tt, World (<[k:=v]> (localStorage w)) (flowstate_days w) (network w) (console w)).

Definition console_warn (msg : string) (e : exn) : M unit := λ w,
  (Ok tt, World (localStorage w) (flowstate_days w) (network w) (console w ++ [(msg, e)])).

(* ===================================================================== *)
(** ** Strings *)
(* ===================================================================== *)

(** A character is a code unit below 256.  [toLowerCase] moves the upper
    case letters of that range (A-Z, and U+00C0-U+00DE but the
    multiplication sign) down by 32. *)
Definition lower_char (c : ascii) : ascii :=
  let n := N_of_ascii c in
  if (((65 <=? n) && (n <=? 90)) || ((192 <=? n) && (n <=? 214))
      || ((216 <=? n) && (n <=? 222)))%N
  then ascii_of_N (n + 32) else c.

Fixpoint toLowerCase (s : string) : string :=
  match s with
  | EmptyString => EmptyString
  | String c s' => String (lower_char c) (toLowerCase s')
  end.

(** [s.includes(needle)] *)
Fixpoint includes (s needle : string) : bool :=
  String.prefix needle s ||
  match s with
  | EmptyString => false
  | String _ s' => includes s' needle
  end.

(* ===================================================================== *)
(** ** Configuration *)
(* ===================================================================== *)

(** [import.meta.env] *)
Record env := Env {
  VITE_BACKEND : option string;
  VITE_SUPABASE_URL : option string;
  VITE_SUPABASE_KEY : option string
}.

(** [x || fallback] on an environment string. *)
Definition env_or (x : option string) (fallback : string) : string :=
  match x with
  | Some s => if String.eqb s EmptyString then fallback else s
  | None => fallback
  end.

Definition BACKEND (e : env) : string := toLowerCase (env_or (VITE_BACKEND e) "local").
Definition SUPABASE_URL (e : env) : string := env_or (VITE_SUPABASE_URL e) EmptyString.
Definition SUPABASE_KEY (e : env) : string := env_or (VITE_SUPABASE_KEY e) EmptyString.

(** Whether the client was created ([supabase] is not null). *)
Definition supabase (e : env) : bool :=
  String.eqb (BACKEND e) "supabase"
  && negb (String.eqb (SUPABASE_URL e) EmptyString)
  && negb (String.eqb (SUPABASE_KEY e) EmptyString).

Definition DEFAULT_GOALS : value :=
  JObj (<["wakeGoal" := JStr "07:00"]> (<["workoutGoal" := JStr "19:00"]>
       (<["lunchTime" := JStr "13:30"]> (<["dinnerTime" := JStr "21:00"]> ∅)))).

(* ===================================================================== *)
(** ** The remote service *)
(* ===================================================================== *)

(** A row of [flowstate_days]. *)
Record row := Row { row_date : string; payload : value }.

(** What a request resolves to: [{ data, error }]. *)
Record response (A : Type) := Response {
  response_data : option A;
  response_error : option exn
}.
Arguments Response {A} _ _.

(** One request: the next outcome of [network] decides whether [serve] runs
    against the table, the promise rejects, or an error is returned. *)
Definition request {A} (serve : gmap string value → option A * gmap string value)
  : M (response A) := λ w,
  let rest := tail (network w) in
  match head (network w) with
  | None | Some Healthy =>
      let '(d, t) := serve (flowstate_days w) in
      (Ok (Response d None), World (localStorage w) t rest (console w))
  | Some (Rejects e) =>
      (Throw e, World (localStorage w) (flowstate_days w) rest (console w))
  | Some (ReturnsError e) =>
      (Ok (Response None (Some e)),
       World (localStorage w) (flowstate_days w) rest (console w))
  end.

(** [supabase.from("flowstate_days").select("*")] *)
Definition select_all : M (response (list row)) :=
  request (λ t, (Some ((λ kv, Row kv.1 kv.2) <$> map_to_list t), t)).

(** [supabase.from("flowstate_days").upsert(r, { onConflict: "date" }).select()]:
    the row with that date is inserted, or its payload replaced. *)
Definition upsert_select (r : row) : M (response (list row)) :=
  request (λ t, (Some [r], <[row_date r := payload r]> t)).

(** [supabase.from("flowstate_days").select("*").eq("date", date).maybeSingle()] *)
Definition select_maybeSingle (date : string) : M (response row) :=
  request (λ t, (Row date <$> t !! date, t)).

(* ===================================================================== *)
(** ** The day store *)
(* ===================================================================== *)

Definition STORAGE_KEY : string := "flowstate.daily".

Section Store.

(** [JSON.parse] ([None]: it throws a SyntaxError) and [JSON.stringify]
    are the runtime's. *)
Variable JSON_parse : string → option value.
Variable JSON_stringify : value → string.

Variable e : env.

Definition parse (raw : string) : M value :=
  match JSON_parse raw with
  | Some v => mret v
  | None => throw SyntaxError
  end.

Definition loadAllDaysLocal : M value :=
  try_catch
    (raw ← getItem STORAGE_KEY;
     match raw with
     | Some (String c s) => parse (String c s)
     | Some EmptyString | None => mret (JObj ∅)
     end)
    (λ _, mret (JObj ∅)).

Definition saveAllDaysLocal (obj : object) : M unit :=
  setItem STORAGE_KEY (JSON_stringify (json obj)).

Definition upsertDayLocal (date : string) (data : value) : M (option value) :=
  all ← loadAllDaysLocal;
  old ← lift (member (parsed all) date);
  all' ← lift (assign (parsed all) date (merge (js_or old (JObj ∅)) data));
  saveAllDaysLocal all';;
  lift (member all' date).

Definition readDayLocal (date : string) : M value :=
  all ← loadAllDaysLocal;
  rec ← lift (member (parsed all) date);
  mret (js_or rec JNull).

(** [if (error) throw error] *)
Definition check (error : option exn) : M unit :=
  match error with
  | Some err => throw err
  | None => mret tt
  end.

Definition remote : bool := String.eqb (BACKEND e) "supabase" && supabase e.

Definition loadAllDays : M value :=
  if remote then
    try_catch
      ('(Response data error) ← select_all;
       check error;;
       match data with
       | Some rows =>
           mret (JObj (foldl (λ entries r, <[row_date r := payload r]> entries) ∅ rows))
       | None => throw TypeError
       end)
      (λ err,
         console_warn "Supabase loadAllDays failed, using local fallback" err;;
         loadAllDaysLocal)
  else loadAllDaysLocal.

Definition upsertDay (date : string) (data : value) : M (option value) :=
  if remote then
    try_catch
      ('(Response upserted error) ← upsert_select (Row date data);
       check error;;
       mret (Some (js_or (payload <$> (upserted ≫= head)) data)))
      (λ err,
         console_warn "Supabase upsert failed, using local fallback" err;;
         upsertDayLocal date data)
  else upsertDayLocal date data.

Definition readDay (date : string) : M value :=
  if remote then
    try_catch
      ('(Response data error) ← select_maybeSingle date;
       check error;;
       mret (js_or (payload <$> data) JNull))
      (λ err,
         console_warn "Supabase read failed, using local fallback" err;;
         readDayLocal date)
  else readDayLocal date.

Definition seed : value :=
  JObj (<["wakeTime" := JStr "10:00"]>
       (<["lunch" := JObj (<["time" := JStr "13:30"]>
                          (<["details" := JStr "veg + one vegetable + dal"]> ∅))]>
       (<["dinner" := JObj (<["time" := JStr "21:00"]>
                           (<["details" := JStr "grilled protein (chicken or fish)"]> ∅))]>
       (<["workout" := JObj (<["time" := JStr "19:00"]>
                            (<["status" := JStr "skipped"]> ∅))]>
       (<["notes" := JStr "Kickoff day. Establishing routine and dashboard."]>
       (<["goals" := merge (JObj ∅) DEFAULT_GOALS]> ∅)))))).

(** [todayISO()] reads the clock: the current date is an argument. *)
Definition seedIfEmpty (todayISO : string) : M unit :=
  all ← loadAllDays;
  n ← lift (keys_length all);
  if (n =? 0)%nat then upsertDay todayISO seed;; mret tt
  else mret tt.

End Store.

(* ===================================================================== *)
(** ** The time pattern *)
(* ===================================================================== *)

(** The pattern of [simulateAIProcessing],
    [/(\d{1,2}:\d{2}|\d{1,2}\s*am|\d{1,2}\s*pm)/i], as the backtracking
    matcher runs it.  A matcher takes the text from the current position
    on and answers with the number of characters it consumed. *)

(** [\s], for code units below 256. *)
Definition is_space (c : ascii) : bool :=
  let n := N_of_ascii c in (((9 <=? n) && (n <=? 13)) || (n =? 32) || (n =? 160))%N.

(** A letter of the pattern under the [i] flag. *)
Definition ci (c x : ascii) : bool := Ascii.eqb (lower_char c) x.

(** [\d{1,2}] then [k]: two digits are tried before one. *)
Definition digits12 (k : string → option nat) (s : string) : option nat :=
  match s with
  | String d1 s1 =>
      if is_digit d1 then
        let one := S <$> k s1 in
        match s1 with
        | String d2 s2 =>
            if is_digit d2 then
              match k s2 with
              | Some n => Some (S (S n))
              | None => one
              end
            else one
        | EmptyString => one
        end
      else None
  | EmptyString => None
  end.

(** [:\d{2}] *)
Definition colon_minutes (s : string) : option nat :=
  match s with
  | String c (String m1 (String m2 _)) =>
      if Ascii.eqb c ":" && is_digit m1 && is_digit m2 then Some 3%nat else None
  | _ => None
  end.

(** [\s*] then [k]: as many spaces as possible are tried first. *)
Fixpoint spaces (k : string → option nat) (s : string) : option nat :=
  match s with
  | String c s' =>
      if is_space c then
        match spaces k s' with
        | Some n => Some (S n)
        | None => k s
        end
      else k s
  | EmptyString => k s
  end.

(** The two letters [x m], either case. *)
Definition meridiem (x : ascii) (s : string) : option nat :=
  match s with
  | String a (String b _) => if ci a x && ci b "m" then Some 2%nat else None
  | _ => None
  end.

(** The three alternatives, in order, at one position. *)
Definition match_here (s : string) : option nat :=
  match digits12 colon_minutes s with
  | Some n => Some n
  | None =>
      match digits12 (spaces (meridiem "a")) s with
      | Some n => Some n
      | None => digits12 (spaces (meridiem "p")) s
      end
  end.

(** [text.match(pattern)], reduced to its capture group [timeMatch[1]]:
    positions are tried from the left. *)
Fixpoint time_match (text : string) : option string :=
  match match_here text with
  | Some n => Some (substring 0 n text)
  | None =>
      match text with
      | String _ text' => time_match text'
      | EmptyString => None
      end
  end.

(* ===================================================================== *)
(** ** The extractor *)
(* ===================================================================== *)

Module PARA_CATEGORIES.
Definition PROJECTS : string := "Projects".
Definition AREAS : string := "Areas".
Definition RESOURCES : string := "Resources".
Definition ARCHIVES : string := "Archives".
End PARA_CATEGORIES.

Record task := Task { text : string; category : string }.

Record habits := Habits {
  wakeTime : option string;
  workoutIntended : option bool
}.

Record extractedData := ExtractedData {
  tasks : list task;
  habits_of : habits;
  mood : string;
  insights : list string;
  paraCategory : option string;    (* [None]: null *)
  scheduledItems : list value
}.

Definition responses : list string := [
  "I've analyzed your input and organized the information. Let me break down what I found:";
  "Great! I've processed your message and extracted key information for your dashboard.";
  "Thanks for sharing that with me! Here's how I've organized what you told me:";
  "I've captured the important details and structured them for your Life OS."
].

Definition taskKeywords : list string :=
  ["finish"; "complete"; "start"; "work on"; "prepare"].

Section Extract.

Variable text : string.

Definition lowerText : string := toLowerCase text.

Definition initial : extractedData :=
  ExtractedData [] (Habits None None) "neutral" [] None [].

Definition wake_step (x : extractedData) : extractedData :=
  if includes lowerText "wake" || includes lowerText "morning" then
    match time_match text with
    | Some timeMatch =>
        ExtractedData (tasks x)
          (Habits (Some timeMatch) (workoutIntended (habits_of x)))
          (mood x)
          (insights x ++ ["Wake time noted: " +:+ timeMatch])
          (paraCategory x) (scheduledItems x)
    | None => x
    end
  else x.

Definition workout_step (x : extractedData) : extractedData :=
  if includes lowerText "workout" || includes lowerText "exercise"
     || includes lowerText "gym" then
    ExtractedData (tasks x)
      (Habits (wakeTime (habits_of x)) (Some true))
      (mood x)
      (insights x ++ ["Workout activity detected"])
      (paraCategory x) (scheduledItems x)
  else x.

(** The body of [taskKeywords.forEach]. *)
Definition push_task (ts : list task) (keyword : string) : list task :=
  if includes lowerText keyword then
    ts ++ [Task ("Complete task related to: " +:+ keyword) "Projects"]
  else ts.

Definition task_step (x : extractedData) : extractedData :=
  if includes lowerText "task" || includes lowerText "todo"
     || includes lowerText "need to" then
    ExtractedData (foldl push_task (tasks x) taskKeywords)
      (habits_of x) (mood x) (insights x) (paraCategory x) (scheduledItems x)
  else x.

Definition learning_step (x : extractedData) : extractedData :=
  if includes lowerText "learn" || includes lowerText "study"
     || includes lowerText "research" then
    ExtractedData (tasks x) (habits_of x) (mood x)
      (insights x ++ ["Learning activity detected - categorized under Resources"])
      (Some PARA_CATEGORIES.RESOURCES) (scheduledItems x)
  else x.

Definition project_step (x : extractedData) : extractedData :=
  if includes lowerText "project" || includes lowerText "deadline"
     || includes lowerText "deliver" then
    ExtractedData (tasks x) (habits_of x) (mood x)
      (insights x ++ ["Project-related activity detected"])
      (Some PARA_CATEGORIES.PROJECTS) (scheduledItems x)
  else x.

Definition with_mood (m : string) (x : extractedData) : extractedData :=
  ExtractedData (tasks x) (habits_of x) m (insights x) (paraCategory x)
    (scheduledItems x).

Definition mood_step (x : extractedData) : extractedData :=
  if includes lowerText "stressed" || includes lowerText "overwhelmed"
     || includes lowerText "tired" then with_mood "low" x
  else if includes lowerText "excited" || includes lowerText "great"
          || includes lowerText "awesome" then with_mood "high" x
  else x.

(** The structured part of the result. *)
Definition extract : extractedData :=
  mood_step (project_step (learning_step (task_step (workout_step
    (wake_step initial))))).

(** [simulateAIProcessing(text)]; [pick] is
    [Math.floor(Math.random() * responses.length)], and the delay before
    the answer has no part in it. *)
Definition simulateAIProcessing (pick : nat) : option string * extractedData :=
  (responses !! pick, extract).

End Extract.

(* ===================================================================== *)
(** ** The dashboard: saving a day, merging an extraction *)
(* ===================================================================== *)

(** ToString, as [+] with a string operand applies it. *)
Fixpoint to_String (v : value) : string :=
  match v with
  | JNull => "null"
  | JBool b => if b then "true" else "false"
  | JNum n => pretty n
  | JStr s => s
  | JArr l =>
      String.concat ","
        (map (λ x, match x with JNull => EmptyString | _ => to_String x end) l)
  | JObj _ => "[object Object]"
  end.

(** [v.k] (or [v?.k]) for a field name [k] of a day record. *)
Definition field (v : value) (k : string) : option value :=
  match v with
  | JObj m => m !! k
  | _ => None
  end.

(** The state of the [Dashboard] component. *)
Record dashboard := Dashboard { date : string; data : value; all : value }.

Section Dashboard.

Variable JSON_parse : string → option value.
Variable JSON_stringify : value → string.
Variable e : env.

Definition saveDay (st : dashboard) (partial : value) : M dashboard :=
  updated ← upsertDay JSON_parse JSON_stringify e (date st) partial;
  reloaded ← loadAllDays JSON_parse e;
  mret (Dashboard (date st) (js_or updated (JObj ∅)) reloaded).

(** What the [onProcess] handler of the dashboard's chatbot hands to
    [saveDay]. *)
Definition updatedData (data : value) (processedData : extractedData)
  : gmap string value :=
  let u := spread data in
  let u :=
    match wakeTime (habits_of processedData) with
    | Some (String c w) => <["wakeTime" := JStr (String c w)]> u
    | _ => u
    end in
  let u :=
    match workoutIntended (habits_of processedData) with
    | Some true =>
        <["workout" :=
            JObj (<["status" := JStr "intended"]>
                    (from_option spread ∅ (u !! "workout")))]> u
    | _ => u
    end in
  let u :=
    if String.eqb (mood processedData) "neutral" then u
    else <["mood" := JStr (mood processedData)]> u in
  match insights processedData with
  | [] => u
  | _ :: _ =>
      let prevNotes :=
        match field data "notes" with
        | Some n => if truthy n then to_String n +:+ "\n" else EmptyString
        | None => EmptyString
        end in
      <["notes" := JStr (prevNotes +:+ "AI Insights: "
                         +:+ String.concat ", " (insights processedData))]> u
  end.

Definition onProcess (st : dashboard) (processedData : extractedData)
  : M dashboard :=
  saveDay st (JObj (updatedData (data st) processedData)).

End Dashboard.

(* ===================================================================== *)
(** ** The dashboard: mounting, choosing a day, the day list *)
(* ===================================================================== *)

(** [Object.keys(v)], in some order. *)
Definition object_keys (v : value) : result (list string) :=
  match v with
  | JNull => Throw TypeError
  | JObj m => Ok (map_to_list m).*1
  | JArr l => Ok (imap (λ i _, pretty i) l)
  | JStr s => Ok (imap (λ i _, pretty i) (chars s))
  | JBool _ | JNum _ => Ok []
  end.

(** [Object.keys(all).sort().reverse()]: the default sort compares strings
    by their code units, which puts distinct keys in one order whatever
    order they came in. *)
Definition dates (all : value) : result (list string) :=
  match object_keys all with
  | Ok keys => Ok (reverse (merge_sort String.le keys))
  | Throw err => Throw err
  end.

Section DashboardEffects.

Variable JSON_parse : string → option value.
Variable JSON_stringify : value → string.
Variable e : env.

(** The effect of the first render.  [date] is the state as initialised,
    [d] what [todayISO()] gives when the effect runs. *)
Definition mount (date d : string) : M dashboard :=
  loaded ← loadAllDays JSON_parse e;
  rd ← readDay JSON_parse e d;
  mret (Dashboard (env_or (Some date) d) (js_or (Some rd) (JObj ∅)) loaded).

(** The effect of a change of [date]. *)
Definition showDate (st : dashboard) (date : string) : M dashboard :=
  rd ← readDay JSON_parse e date;
  mret (Dashboard date (js_or (Some rd) (JObj ∅)) (all st)).

(** The [Today] button, as far as the store goes: [saveDay] is the one of
    the render the button belongs to, which saves under the date on
    display. *)
Definition today_click (st : dashboard) (d : string) : M unit :=
  rd ← readDay JSON_parse e d;
  if truthy rd then mret tt
  else saveDay JSON_parse JSON_stringify e st (JObj ∅);; mret tt.

End DashboardEffects.

(* ===================================================================== *)
(** ** Quick edit *)
(* ===================================================================== *)

(** The state of the [QuickEdit] form. *)
Record form := Form {
  form_wakeTime : value;
  lunchTime : value;
  lunchDetails : value;
  dinnerTime : value;
  dinnerDetails : value;
  workoutTime : value;
  workoutStatus : value;
  form_notes : value
}.

(** [data?.a?.b] *)
Definition field2 (data : value) (a b : string) : option value :=
  field data a ≫= λ x, field x b.

(** The form as first shown for the record [data]. *)
Definition initialForm (data : value) : form :=
  Form (js_or (field data "wakeTime") (JStr EmptyString))
       (js_or (field2 data "lunch" "time") (JStr "13:30"))
       (js_or (field2 data "lunch" "details") (JStr "veg + one vegetable + dal"))
       (js_or (field2 data "dinner" "time") (JStr "21:00"))
       (js_or (field2 data "dinner" "details")
          (JStr "grilled protein (chicken or fish)"))
       (js_or (field2 data "workout" "time") (JStr "19:00"))
       (js_or (field2 data "workout" "status") (JStr "pending"))
       (js_or (field data "notes") (JStr EmptyString)).

(** What [submit] hands to [onSave]. *)
Definition submit (f : form) : value :=
  JObj (<["wakeTime" := form_wakeTime f]>
       (<["lunch" := JObj (<["time" := lunchTime f]>
                          (<["details" := lunchDetails f]> ∅))]>
       (<["dinner" := JObj (<["time" := dinnerTime f]>
                           (<["details" := dinnerDetails f]> ∅))]>
       (<["workout" := JObj (<["time" := workoutTime f]>
                            (<["status" := workoutStatus f]> ∅))]>
       (<["notes" := form_notes f]>
       (<["goals" := merge (JObj ∅) DEFAULT_GOALS]> ∅)))))).

(** [hasData]: whether the dashboard shows the day rather than the empty
    state.  [aiProcessedData] is null or an extraction. *)
Definition hasData (data : value) (aiProcessedData : option extractedData) : bool :=
  from_option truthy false (field data "wakeTime")
  || from_option truthy false (field2 data "workout" "status")
  || from_option truthy false (field2 data "lunch" "time")
  || from_option truthy false (field2 data "dinner" "time")
  || bool_decide (is_Some aiProcessedData).

(* ===================================================================== *)
(** ** The tour and the theme *)
(* ===================================================================== *)

Record tour_step := TourStep { step_id : string; target : option string }.

Definition TOUR_STEPS : list tour_step := [
  TourStep "welcome" None;
  TourStep "ai-assistant" (Some "[data-tour='ai-assistant']");
  TourStep "para-method" (Some "[data-tour='para-dashboard']");
  TourStep "daily-tracking" (Some "[data-tour='daily-tracking']");
  TourStep "quick-edit" (Some "[data-tour='quick-edit']");
  TourStep "navigation" (Some "[data-tour='navigation']")
].

(** The state of [App] that the tour and the navigation bar work on. *)
Record app := App { active : string; isTouring : bool; tourStep : nat }.

Definition startTour (a : app) : app := App "dashboard" true 0.

Definition startChatting (a : app) : app :=
  App "ai-assistant" (isTouring a) (tourStep a).

Definition endTour (a : app) : app := App (active a) false 0.

Definition nextTourStep (a : app) : app :=
  if (tourStep a <? length TOUR_STEPS - 1)%nat then
    let currentStep := TOUR_STEPS !! tourStep a in
    let target_is t := bool_decide (currentStep ≫= target = Some t) in
    App (if target_is "[data-tour='ai-assistant']" then "ai-assistant"
         else if target_is "[data-tour='daily-tracking']"
                 || target_is "[data-tour='para-dashboard']" then "dashboard"
         else active a)
        (isTouring a) (tourStep a + 1)
  else a.

Definition prevTourStep (a : app) : app :=
  if (0 <? tourStep a)%nat then App (active a) (isTouring a) (tourStep a - 1)
  else a.

(** [setActive(page)], from the navigation bar or the landing page. *)
Definition setActive (page : string) (a : app) : app :=
  App page (isTouring a) (tourStep a).

(** The theme of [FlowStateDashboard]: its initial value, the toggle, and
    the effect that stores it. *)
Definition initialTheme : M string :=
  saved ← getItem "flowstate-theme";
  mret (env_or saved "light").

Definition toggleTheme (prev : string) : string :=
  if String.eqb prev "light" then "dark" else "light".

Definition storeTheme (theme : string) : M unit :=
  setItem "flowstate-theme" theme.

(* ===================================================================== *)
(** ** The chatbot *)
(* ===================================================================== *)

(** A message of the conversation, without its timestamp.  The content of
    an answer is [processedData.response]. *)
Record message := Message {
  message_id : nat;
  message_type : string;
  content : option string;
  processedInfo : option extractedData
}.

(** The state of the [AIChatbot] component. *)
Record chat := Chat {
  messages : list message;
  input : string;
  isProcessing : bool
}.

Definition initialChat : chat :=
  Chat [Message 1 "ai"
          (Some "Hi! I'm your AI Life Assistant. I can help you organize your thoughts, tasks, and daily information automatically. Tell me about your day, goals, or anything on your mind!")
          None]
       EmptyString false.

(** [!text.trim()]: nothing but white space. *)
Definition blank (text : string) : bool :=
  forallb is_space (list_ascii_of_string text).

(** [processMessage(text)], run to its end: the state it leaves and what
    it hands to [onProcess].  Nothing in the [try] block throws, so the
    [catch] branch is left out. *)
Definition processMessage (c : chat) (text : string) (pick : nat)
  : chat * option extractedData :=
  if blank text then (c, None)
  else
    let userMessage :=
      Message (length (messages c) + 1) "user" (Some text) None in
    let processedData := simulateAIProcessing text pick in
    let aiMessage :=
      Message (length (messages c) + 2) "ai" processedData.1
        (Some processedData.2) in
    (Chat ((messages c ++ [userMessage]) ++ [aiMessage]) EmptyString false,
     Some processedData.2).

Definition handleSubmit (c : chat) (pick : nat) : chat * option extractedData :=
  processMessage c (input c) pick.

(* ===================================================================== *)
(** ** A reference JSON codec *)
(* ===================================================================== *)

(** The store takes [JSON.parse] and [JSON.stringify] as given.  This is
    one such pair, for the values above: the text [JSON.stringify] writes
    (no white space, the escapes it uses), and a parser of JSON text whose
    numbers are integers and whose characters are below 256. *)
Module Json.

(** The double quote. *)
Definition quote : ascii := ascii_of_N 34.

Definition hex_digit (n : N) : ascii :=
  ascii_of_N (if (n <? 10)%N then 48 + n else 87 + n).

Definition hex_value (c : ascii) : option N :=
  let n := N_of_ascii c in
  if ((48 <=? n) && (n <=? 57))%N then Some (n - 48)%N
  else if ((97 <=? n) && (n <=? 102))%N then Some (n - 87)%N
  else if ((65 <=? n) && (n <=? 70))%N then Some (n - 55)%N
  else None.

(** One character of a string literal, followed by [rest]. *)
Definition write_char (c : ascii) (rest : string) : string :=
  let n := N_of_ascii c in
  let esc x := String "\" (String x rest) in
  if (n =? 34)%N then esc quote
  else if (n =? 92)%N then esc "\"%char
  else if (n =? 8)%N then esc "b"%char
  else if (n =? 9)%N then esc "t"%char
  else if (n =? 10)%N then esc "n"%char
  else if (n =? 12)%N then esc "f"%char
  else if (n =? 13)%N then esc "r"%char
  else if (n <? 32)%N then
    String "\" (String "u" (String "0" (String "0"
      (String (hex_digit (n / 16)) (String (hex_digit (n mod 16)) rest)))))
  else String c rest.

Fixpoint write_chars (s rest : string) : string :=
  match s with
  | EmptyString => rest
  | String c s' => write_char c (write_chars s' rest)
  end.

Definition write_string (s rest : string) : string :=
  String quote (write_chars s (String quote rest)).

Fixpoint write_uint (d : Decimal.uint) (rest : string) : string :=
  match d with
  | Decimal.Nil => rest
  | Decimal.D0 d => String "0" (write_uint d rest)
  | Decimal.D1 d => String "1" (write_uint d rest)
  | Decimal.D2 d => String "2" (write_uint d rest)
  | Decimal.D3 d => String "3" (write_uint d rest)
  | Decimal.D4 d => String "4" (write_uint d rest)
  | Decimal.D5 d => String "5" (write_uint d rest)
  | Decimal.D6 d => String "6" (write_uint d rest)
  | Decimal.D7 d => String "7" (write_uint d rest)
  | Decimal.D8 d => String "8" (write_uint d rest)
  | Decimal.D9 d => String "9" (write_uint d rest)
  end.

Definition write_number (n : Z) (rest : string) : string :=
  match Z.to_int n with
  | Decimal.Pos d => write_uint d rest
  | Decimal.Neg d => String "-" (write_uint d rest)
  end.

(** Items separated by commas. *)
Fixpoint write_list (items : list (string → string)) (rest : string) : string :=
  match items with
  | [] => rest
  | [w] => w rest
  | w :: ws => w (String "," (write_list ws rest))
  end.

Definition write_member (kw : string * (string → string)) (rest : string) : string :=
  write_string kw.1 (String ":" (kw.2 rest)).

Fixpoint write (v : value) (rest : string) : string :=
  match v with
  | JNull => "null" +:+ rest
  | JBool true => "true" +:+ rest
  | JBool false => "false" +:+ rest
  | JNum n => write_number n rest
  | JStr s => write_string s rest
  | JArr l => String "[" (write_list (map write l) (String "]" rest))
  | JObj m =>
      String "{" (write_list (write_member <$> map_to_list (write <$> m))
                    (String "}" rest))
  end.

Definition stringify (v : value) : string := write v EmptyString.

(** *** Parsing *)

Definition is_ws (c : ascii) : bool :=
  let n := N_of_ascii c in ((n =? 32) || (n =? 9) || (n =? 10) || (n =? 13))%N.

Fixpoint skip_ws (s : string) : string :=
  match s with
  | String c s' => if is_ws c then skip_ws s' else s
  | EmptyString => s
  end.

(** The rest of [s] after the literal [lit]. *)
Fixpoint expect (lit s : string) : option string :=
  match lit, s with
  | EmptyString, _ => Some s
  | String a lit', String b s' => if Ascii.eqb a b then expect lit' s' else None
  | String _ _, EmptyString => None
  end.

(** The characters of a string literal, after its opening quote. *)
Fixpoint read_chars (s : string) : option (string * string) :=
  match s with
  | EmptyString => None
  | String c s1 =>
      let n := N_of_ascii c in
      if (n =? 34)%N then Some (EmptyString, s1)
      else if (n =? 92)%N then
        match s1 with
        | EmptyString => None
        | String x s2 =>
            let plain (c' : ascii) :=
              '(t, r) ← read_chars s2; Some (String c' t, r) in
            let m := N_of_ascii x in
            if (m =? 34)%N then plain quote
            else if (m =? 92)%N then plain "\"%char
            else if (m =? 47)%N then plain "/"%char
            else if (m =? 98)%N then plain (ascii_of_N 8)
            else if (m =? 116)%N then plain (ascii_of_N 9)
            else if (m =? 110)%N then plain (ascii_of_N 10)
            else if (m =? 102)%N then plain (ascii_of_N 12)
            else if (m =? 114)%N then plain (ascii_of_N 13)
            else if (m =? 117)%N then
              match s2 with
              | String h1 (String h2 (String h3 (String h4 s3))) =>
                  a ← hex_value h1; b ← hex_value h2;
                  c ← hex_value h3; d ← hex_value h4;
                  let code := (((a * 16 + b) * 16 + c) * 16 + d)%N in
                  if (code <? 256)%N then
                    '(t, r) ← read_chars s3; Some (String (ascii_of_N code) t, r)
                  else None
              | _ => None
              end
            else None
        end
      else if (n <? 32)%N then None
      else '(t, r) ← read_chars s1; Some (String c t, r)
  end.

Definition read_string (s : string) : option (string * string) :=
  match s with
  | String c s' => if Ascii.eqb c quote then read_chars s' else None
  | EmptyString => None
  end.

Definition digit_of (c : ascii) : option (Decimal.uint → Decimal.uint) :=
  match (N_of_ascii c - 48)%N, is_digit c with
  | 0%N, true => Some Decimal.D0
  | 1%N, true => Some Decimal.D1
  | 2%N, true => Some Decimal.D2
  | 3%N, true => Some Decimal.D3
  | 4%N, true => Some Decimal.D4
  | 5%N, true => Some Decimal.D5
  | 6%N, true => Some Decimal.D6
  | 7%N, true => Some Decimal.D7
  | 8%N, true => Some Decimal.D8
  | 9%N, true => Some Decimal.D9
  | _, _ => None
  end.

(** The longest run of digits at the start of [s]. *)
Fixpoint read_uint (s : string) : Decimal.uint * string :=
  match s with
  | String c s' =>
      match digit_of c with
      | Some d => let '(u, r) := read_uint s' in (d u, r)
      | None => (Decimal.Nil, s)
      end
  | EmptyString => (Decimal.Nil, s)
  end.

(** A digit run is a number when it is not empty and has no leading zero. *)
Definition canonical (u : Decimal.uint) : bool :=
  match u with
  | Decimal.Nil => false
  | Decimal.D0 Decimal.Nil => true
  | Decimal.D0 _ => false
  | _ => true
  end.

Definition read_number (s : string) : option (Z * string) :=
  match s with
  | String c s' =>
      if Ascii.eqb c "-" then
        let '(u, r) := read_uint s' in
        if canonical u then Some (Z.of_int (Decimal.Neg u), r) else None
      else
        let '(u, r) := read_uint s in
        if canonical u then Some (Z.of_int (Decimal.Pos u), r) else None
  | EmptyString => None
  end.

(** The items of an array after the first bracket, read by [rd]; at most
    [k] of them. *)
Fixpoint read_items (rd : string → option (value * string)) (k : nat)
    (s : string) : option (list value * string) :=
  match k with
  | O => None
  | S k =>
      '(v, r1) ← rd s;
      match skip_ws r1 with
      | String c r2 =>
          if Ascii.eqb c "," then
            '(vs, r3) ← read_items rd k r2; Some (v :: vs, r3)
          else if Ascii.eqb c "]" then Some ([v], r2)
          else None
      | EmptyString => None
      end
  end.

(** The members of an object after the first brace, added to [acc] in
    the order read: of two members with one key the later stays. *)
Fixpoint read_members (rd : string → option (value * string)) (k : nat)
    (acc : gmap string value) (s : string)
    : option (gmap string value * string) :=
  match k with
  | O => None
  | S k =>
      '(key, r1) ← read_string (skip_ws s);
      match skip_ws r1 with
      | String c r2 =>
          if Ascii.eqb c ":" then
            '(v, r3) ← rd r2;
            match skip_ws r3 with
            | String c' r4 =>
                if Ascii.eqb c' "," then read_members rd k (<[key:=v]> acc) r4
                else if Ascii.eqb c' "}" then Some (<[key:=v]> acc, r4)
                else None
            | EmptyString => None
            end
          else None
      | EmptyString => None
      end
  end.

(** A value at the start of [s], white space before it skipped.  [fuel]
    bounds the nesting and the number of items of an array or object. *)
Fixpoint read (fuel : nat) (s : string) : option (value * string) :=
  match fuel with
  | O => None
  | S fuel =>
      match skip_ws s with
      | EmptyString => None
      | String c r as s0 =>
          if Ascii.eqb c "n" then r' ← expect "ull" r; Some (JNull, r')
          else if Ascii.eqb c "t" then r' ← expect "rue" r; Some (JBool true, r')
          else if Ascii.eqb c "f" then r' ← expect "alse" r; Some (JBool false, r')
          else if Ascii.eqb c quote then
            '(t, r') ← read_chars r; Some (JStr t, r')
          else if Ascii.eqb c "[" then
            match skip_ws r with
            | String c' r' =>
                if Ascii.eqb c' "]" then Some (JArr [], r')
                else '(vs, r'') ← read_items (read fuel) fuel r; Some (JArr vs, r'')
            | EmptyString => None
            end
          else if Ascii.eqb c "{" then
            match skip_ws r with
            | String c' r' =>
                if Ascii.eqb c' "}" then Some (JObj ∅, r')
                else '(m, r'') ← read_members (read fuel) fuel ∅ r; Some (JObj m, r'')
            | EmptyString => None
            end
          else '(n, r') ← read_number s0; Some (JNum n, r')
      end
  end.

(** [JSON.parse]: one value, then nothing but white space. *)
Definition parse (s : string) : option value :=
  '(v, r) ← read (S (String.length s)) s;
  match skip_ws r with
  | EmptyString => Some v
  | String _ _ => None
  end.

(** The number of nodes of a value. *)
Fixpoint nodes (v : value) : nat :=
  match v with
  | JArr l => S (foldr (λ x n, nodes x + n)%nat O l)
  | JObj m => S (map_fold (λ _ x n, nodes x + n)%nat O m)
  | _ => 1%nat
  end.

(** [s] does not go on with a digit. *)
Definition no_digit (s : string) : Prop :=
  match s with
  | String c _ => digit_of c = None
  | EmptyString => True
  end.

(** The text of a value starts with a character that is neither white
    space nor a closing bracket. *)
Definition opens (s : string) : Prop :=
  ∃ c r, s = String c r ∧ is_ws c = false
         ∧ Ascii.eqb c "]" = false ∧ Ascii.eqb c "}" = false.

(** [rd] reads back the value [v]. *)
Definition reads (rd : string → option (value * string)) (v : value) : Prop :=
  ∀ rest, no_digit rest → rd (write v rest) = Some (v, rest).

End Json.

(* ===================================================================== *)
(** ** Vocabulary of the properties *)
(* ===================================================================== *)

(** The keyword tests of [simulateAIProcessing], by name. *)
Definition wake_keyword (text : string) : bool :=
  includes (lowerText text) "wake" || includes (lowerText text) "morning".

Definition workout_keyword (text : string) : bool :=
  includes (lowerText text) "workout" || includes (lowerText text) "exercise"
  || includes (lowerText text) "gym".

Definition task_keyword (text : string) : bool :=
  includes (lowerText text) "task" || includes (lowerText text) "todo"
  || includes (lowerText text) "need to".

Definition learning_keyword (text : string) : bool :=
  includes (lowerText text) "learn" || includes (lowerText text) "study"
  || includes (lowerText text) "research".

Definition project_keyword (text : string) : bool :=
  includes (lowerText text) "project" || includes (lowerText text) "deadline"
  || includes (lowerText text) "deliver".

Definition negative_keyword (text : string) : bool :=
  includes (lowerText text) "stressed" || includes (lowerText text) "overwhelmed"
  || includes (lowerText text) "tired".

Definition positive_keyword (text : string) : bool :=
  includes (lowerText text) "excited" || includes (lowerText text) "great"
  || includes (lowerText text) "awesome".

(** The task entry of a verb keyword. *)
Definition task_for (verb : string) : task :=
  Task ("Complete task related to: " +:+ verb) "Projects".

(** The language of the time pattern: one or two digits, then either a
    colon and two digits, or any run of white space and [am] or [pm] in
    either case. *)
Definition all_chars (p : ascii → bool) (s : string) : Prop :=
  ∀ c, In c (list_ascii_of_string s) → p c = true.

Definition hour_digits (s : string) : Prop :=
  (String.length s = 1 ∨ String.length s = 2)%nat ∧ all_chars is_digit s.

Inductive time_literal : string → Prop :=
  | literal_clock h m1 m2 :
      hour_digits h → is_digit m1 = true → is_digit m2 = true →
      time_literal (h +:+ String ":" (String m1 (String m2 EmptyString)))
  | literal_meridiem h ws a m x :
      hour_digits h → all_chars is_space ws →
      x = "a"%char ∨ x = "p"%char → ci a x = true → ci m "m" = true →
      time_literal (h +:+ ws +:+ String a (String m EmptyString)).

(** [lit] occurs in [text] after [pre], and no literal of the pattern
    starts further left. *)
Definition leftmost_literal (text pre lit : string) : Prop :=
  (∃ post, text = pre +:+ lit +:+ post) ∧ time_literal lit ∧
  ∀ pre' lit' post', text = pre' +:+ lit' +:+ post' → time_literal lit' →
    (String.length pre ≤ String.length pre')%nat.

(** What follows the hour digits of a literal of the meridiem form. *)
Definition meridiem_tail (x : ascii) (s : string) : Prop :=
  ∃ ws a m post, s = ws +:+ String a (String m post)
    ∧ all_chars is_space ws ∧ ci a x = true ∧ ci m "m" = true.

(** A time of day in the form the day record is meant to hold: HH:MM on
    the 24-hour clock. *)
Definition digit_value (c : ascii) : N := (N_of_ascii c - 48)%N.

Definition is_HHMM (s : string) : bool :=
  match s with
  | String h1 (String h2 (String c (String m1 (String m2 EmptyString)))) =>
      is_digit h1 && is_digit h2 && Ascii.eqb c ":" && is_digit m1 && is_digit m2
      && (digit_value h1 * 10 + digit_value h2 <? 24)%N
      && (digit_value m1 <? 6)%N
  | _ => false
  end.

(** The day a date key names, as the number YYYYMMDD. *)
Fixpoint number_of (acc : N) (s : string) : N :=
  match s with
  | EmptyString => acc
  | String c s' => number_of (acc * 10 + digit_value c) s'
  end.

Definition date_number (d : string) : N :=
  (number_of 0 (substring 0 4 d) * 10000
   + number_of 0 (substring 5 2 d) * 100
   + number_of 0 (substring 8 2 d))%N.

(** The value [loadAllDaysLocal] answers with, read off [localStorage]. *)
Definition stored (JSON_parse : string → option value) (w : world) : value :=
  match localStorage w !! STORAGE_KEY with
  | Some (String c s) => default (JObj ∅) (JSON_parse (String c s))
  | Some EmptyString | None => JObj ∅
  end.

(** The payload is missing, empty, or not JSON. *)
Definition unreadable (JSON_parse : string → option value) (w : world) : Prop :=
  match localStorage w !! STORAGE_KEY with
  | Some raw => raw = EmptyString ∨ JSON_parse raw = None
  | None => True
  end.

(** The entry of a date in the local store, [loadAllDaysLocal()[date]];
    [None] is its absence. *)
Definition entry (JSON_parse : string → option value) (date : string)
  : M (option value) :=
  all ← loadAllDaysLocal JSON_parse;
  lift (member (parsed all) date).

(** The error of the next request, when it is to fail. *)
Definition next_failure (w : world) : option exn :=
  match head (network w) with
  | Some (Rejects err) | Some (ReturnsError err) => Some err
  | Some Healthy | None => None
  end.

(** The next request will be served. *)
Definition next_healthy (w : world) : Prop := next_failure w = None.

(** Two runs give the caller the same result and leave the same
    [localStorage]. *)
Definition same_locally {A} (x y : result A * world) : Prop :=
  x.1 = y.1 ∧ localStorage x.2 = localStorage y.2.

(** The world after a failed request whose fallback warned with [msg]. *)
Definition after_failure (msg : string) (err : exn) (w : world) : world :=
  World (localStorage w) (flowstate_days w) (tail (network w))
    (console w ++ [(msg, err)]).

(** What [saveAllDaysLocal] leaves. *)
Definition saved (JSON_stringify : value → string) (obj : object) (w : world)
  : world :=
  World (<[STORAGE_KEY := JSON_stringify (json obj)]> (localStorage w))
    (flowstate_days w) (network w) (console w).

(** The world once a request has been served and left the table as [t]. *)
Definition served (t : gmap string value) (w : world) : world :=
  World (localStorage w) t (tail (network w)) (console w).

(** Two partial records and a date, for the examples. *)
Definition wake_partial : value := JObj {[ "wakeTime" := JStr "07:00" ]}.
Definition notes_partial : value := JObj {[ "notes" := JStr "slept well" ]}.
Definition a_day : string := "2025-01-15".
Definition next_day : string := "2025-01-16".

(** Configurations and a fresh world, for the examples. *)
Definition local_env : env := Env None None None.
Definition supabase_env : env :=
  Env (Some "Supabase") (Some "https://flowstate.supabase.co") (Some "anon-key").
Definition fresh : world := World ∅ ∅ [] [].

(** A world whose payload is not JSON, and one whose next request is
    refused. *)
Definition garbled : world := World {[ STORAGE_KEY := "{oops" ]} ∅ [] [].
Definition offline : world :=
  World ∅ ∅ [Rejects (ServiceError "Failed to fetch")] [].

(* ===================================================================== *)
(** * Properties of the extractor *)
(* ===================================================================== *)

(** The structured part of what [simulateAIProcessing] returns does not
    depend on the response drawn. *)
Lemma simulateAIProcessing_extract text pick :
  (simulateAIProcessing text pick).2 = extract text.
Proof. reflexivity. Qed.

Section ExtractFacts.

Variable text : string.

Lemma tasks_after_task_step x :
  tasks (mood_step text (project_step text (learning_step text x))) = tasks x.
Proof.
  unfold mood_step, project_step, learning_step, with_mood.
  repeat case_match; reflexivity.
Qed.

Lemma paraCategory_mood_step x : paraCategory (mood_step text x) = paraCategory x.
Proof. unfold mood_step, with_mood. repeat case_match; reflexivity. Qed.

Lemma paraCategory_before_learning :
  paraCategory (task_step text (workout_step text (wake_step text initial))) = None.
Proof.
  unfold task_step, workout_step, wake_step, initial.
  repeat case_match; reflexivity.
Qed.

Lemma mood_before_mood_step :
  mood (project_step text (learning_step text (task_step text
    (workout_step text (wake_step text initial))))) = "neutral".
Proof.
  unfold project_step, learning_step, task_step, workout_step, wake_step, initial.
  repeat case_match; reflexivity.
Qed.

Lemma tasks_before_task_step :
  tasks (workout_step text (wake_step text initial)) = [].
Proof. unfold workout_step, wake_step, initial. repeat case_match; reflexivity. Qed.

(** The [forEach] loop appends, in list order, the entry of each keyword
    the text includes. *)
Lemma foldl_push_task (ks : list string) (acc : list task) :
  foldl (push_task text) acc ks
  = acc ++ map task_for (filter (λ k, includes (lowerText text) k = true) ks).
Proof.
  revert acc. induction ks as [|k ks IH]; intros acc; simpl.
  - by rewrite app_nil_r.
  - rewrite IH. unfold push_task. rewrite filter_cons.
    destruct (includes (lowerText text) k) eqn:Hk.
    + rewrite decide_True by done. simpl. by rewrite <- app_assoc.
    + rewrite decide_False by done. done.
Qed.

End ExtractFacts.

(** C5: when a learning keyword and a project keyword both occur,
    [paraCategory] is "Projects" (the later rule overwrites the earlier);
    when only a learning keyword occurs it is "Resources"; when neither
    occurs it is null. *)
Theorem C5_paraCategory (text : string) :
  (learning_keyword text = true → project_keyword text = true →
     paraCategory (extract text) = Some "Projects")
  ∧ (learning_keyword text = true → project_keyword text = false →
     paraCategory (extract text) = Some "Resources")
  ∧ (learning_keyword text = false → project_keyword text = false →
     paraCategory (extract text) = None).
Proof.
  unfold learning_keyword, project_keyword, extract.
  rewrite paraCategory_mood_step.
  unfold project_step, learning_step.
  repeat split; intros Hl Hp; rewrite Hl, Hp; simpl; try reflexivity.
  apply paraCategory_before_learning.
Qed.

Lemma C5_paraCategory_witness :
  paraCategory (extract "study for the project deadline") = Some "Projects"
  ∧ paraCategory (extract "I want to learn chess") = Some "Resources"
  ∧ paraCategory (extract "went for a walk") = None.
Proof.
  split; [|split].
  - apply (C5_paraCategory "study for the project deadline"); reflexivity.
  - apply (C5_paraCategory "I want to learn chess"); reflexivity.
  - apply (C5_paraCategory "went for a walk"); reflexivity.
Defined.

(** C6: when a task keyword occurs, [tasks] holds exactly one entry
    [{ text: "Complete task related to: <verb>", category: "Projects" }]
    for each verb of [taskKeywords] that the lower-cased text includes, in
    the order of [taskKeywords]; when no task keyword occurs, [tasks] is
    empty. *)
Theorem C6_tasks (text : string) :
  (task_keyword text = true →
     tasks (extract text)
     = map task_for
         (filter (λ verb, includes (lowerText text) verb = true) taskKeywords))
  ∧ (task_keyword text = false → tasks (extract text) = []).
Proof.
  unfold task_keyword, extract. rewrite tasks_after_task_step.
  unfold task_step. split; intros ->; cbn [tasks].
  - rewrite foldl_push_task, tasks_before_task_step. reflexivity.
  - apply tasks_before_task_step.
Qed.

Lemma C6_tasks_witness :
  tasks (extract "I need to prepare slides, then start and finish the report")
  = [task_for "finish"; task_for "start"; task_for "prepare"]
  ∧ tasks (extract "prepare, start, finish") = [].
Proof.
  split.
  - apply (C6_tasks "I need to prepare slides, then start and finish the report").
    reflexivity.
  - apply (C6_tasks "prepare, start, finish"). reflexivity.
Defined.

(** C7: [mood] is "low" when a negative keyword occurs, otherwise "high"
    when a positive keyword occurs, otherwise "neutral"; a text with both a
    negative and a positive keyword has mood "low". *)
Theorem C7_mood (text : string) :
  mood (extract text)
  = if negative_keyword text then "low"
    else if positive_keyword text then "high"
    else "neutral".
Proof.
  unfold negative_keyword, positive_keyword, extract, mood_step.
  repeat case_match; simpl; try reflexivity.
  apply mood_before_mood_step.
Qed.

(* ===================================================================== *)
(** * Properties of strings *)
(* ===================================================================== *)

Lemma app_cons c s t : String c s +:+ t = String c (s +:+ t).
Proof. reflexivity. Qed.

Lemma app_empty_l s : EmptyString +:+ s = s.
Proof. reflexivity. Qed.

Lemma app_assoc_str s t u : (s +:+ t) +:+ u = s +:+ t +:+ u.
Proof. induction s as [|c s IH]; [done|]. rewrite !app_cons. by f_equal. Qed.

Lemma length_app_str s t :
  String.length (s +:+ t) = (String.length s + String.length t)%nat.
Proof. induction s as [|c s IH]; [done|]. rewrite app_cons. simpl. by f_equal. Qed.

Lemma substring_app lit post :
  substring 0 (String.length lit) (lit +:+ post) = lit.
Proof.
  induction lit as [|c lit IH].
  - rewrite app_empty_l. by destruct post.
  - rewrite app_cons. simpl. by f_equal.
Qed.

Lemma prefix_app n post : String.prefix n (n +:+ post) = true.
Proof.
  induction n as [|c n IH]; [by destruct post|]. rewrite app_cons. simpl.
  destruct (ascii_dec c c); [apply IH | done].
Qed.

Lemma prefix_split n s : String.prefix n s = true → ∃ post, s = n +:+ post.
Proof.
  revert s. induction n as [|c n IH]; intros s H.
  - by exists s.
  - destruct s as [|c' s]; [done|]. simpl in H.
    destruct (ascii_dec c c') as [->|]; [|done].
    destruct (IH _ H) as [post ->]. by exists post.
Qed.

Lemma includes_nil n :
  includes EmptyString n = String.prefix n EmptyString || false.
Proof. reflexivity. Qed.

Lemma includes_cons c s n :
  includes (String c s) n = String.prefix n (String c s) || includes s n.
Proof. reflexivity. Qed.

(** [includes] is the substring test. *)
Lemma includes_spec s n :
  includes s n = true ↔ ∃ pre post, s = pre +:+ n +:+ post.
Proof.
  split.
  - induction s as [|c s IH]; intros H.
    + rewrite includes_nil in H. apply orb_true_iff in H as [H|]; [|done].
      apply prefix_split in H as [post ->]. by exists EmptyString, post.
    + rewrite includes_cons in H. apply orb_true_iff in H as [H|H].
      * apply prefix_split in H as [post ->]. by exists EmptyString, post.
      * destruct (IH H) as (pre & post & ->). by exists (String c pre), post.
  - intros (pre & post & ->). induction pre as [|c pre IH].
    + rewrite app_empty_l. destruct (n +:+ post) eqn:E.
      * by rewrite includes_nil, <- E, prefix_app.
      * by rewrite includes_cons, <- E, prefix_app.
    + rewrite app_cons, includes_cons, IH. apply orb_true_r.
Qed.

(* ===================================================================== *)
(** * Properties of the time pattern *)
(* ===================================================================== *)

Lemma all_chars_nil p : all_chars p EmptyString.
Proof. by intros c []. Qed.

Lemma all_chars_cons p c s :
  all_chars p (String c s) ↔ p c = true ∧ all_chars p s.
Proof.
  unfold all_chars. simpl. split.
  - intros H. split; [apply H; by left | intros c' ?; apply H; by right].
  - intros [H1 H2] c' [<-|?]; auto.
Qed.

Lemma hour_digits_inv h :
  hour_digits h →
  (∃ d1, h = String d1 EmptyString ∧ is_digit d1 = true)
  ∨ (∃ d1 d2, h = String d1 (String d2 EmptyString)
       ∧ is_digit d1 = true ∧ is_digit d2 = true).
Proof.
  intros [Hlen Hall]. destruct h as [|d1 [|d2 [|d3 h]]]; simpl in Hlen.
  - by destruct Hlen.
  - left. exists d1. split; [done|]. by apply all_chars_cons in Hall as [? _].
  - right. exists d1, d2. split; [done|].
    apply all_chars_cons in Hall as [? Hall].
    by apply all_chars_cons in Hall as [? _].
  - destruct Hlen; lia.
Qed.

Lemma hour_digits_one d : is_digit d = true → hour_digits (String d EmptyString).
Proof.
  intros H. split; [by left|]. apply all_chars_cons. split; [done|]. apply all_chars_nil.
Qed.

Lemma hour_digits_two d1 d2 :
  is_digit d1 = true → is_digit d2 = true →
  hour_digits (String d1 (String d2 EmptyString)).
Proof.
  intros H1 H2. split; [by right|].
  apply all_chars_cons. split; [done|]. by apply hour_digits_one.
Qed.

Lemma digits12_sound k s n :
  digits12 k s = Some n →
  ∃ h rest m, s = h +:+ rest ∧ hour_digits h ∧ k rest = Some m
              ∧ n = (String.length h + m)%nat.
Proof.
  unfold digits12. destruct s as [|d1 s1]; [done|].
  destruct (is_digit d1) eqn:H1; [|done].
  assert (S <$> k s1 = Some n → ∃ h rest m, String d1 s1 = h +:+ rest
            ∧ hour_digits h ∧ k rest = Some m ∧ n = (String.length h + m)%nat)
    as Hone.
  { destruct (k s1) as [m|] eqn:Hk; [|done]. intros [= <-].
    exists (String d1 EmptyString), s1, m. eauto using hour_digits_one. }
  destruct s1 as [|d2 s2]; [done|].
  destruct (is_digit d2) eqn:H2; [|done].
  destruct (k s2) as [m|] eqn:Hk; [|done]. intros [= <-].
  exists (String d1 (String d2 EmptyString)), s2, m. eauto using hour_digits_two.
Qed.

Lemma digits12_complete k h rest :
  hour_digits h → is_Some (k rest) → is_Some (digits12 k (h +:+ rest)).
Proof.
  intros Hh [m Hm]. apply hour_digits_inv in Hh as [(d1 & -> & H1)|(d1 & d2 & -> & H1 & H2)].
  - rewrite app_cons, app_empty_l. unfold digits12. rewrite H1, Hm. simpl.
    destruct rest as [|d2 s2]; [eauto|].
    destruct (is_digit d2); [|eauto]. destruct (k s2); eauto.
  - rewrite !app_cons, app_empty_l. unfold digits12. by rewrite H1, H2, Hm.
Qed.

Lemma colon_minutes_sound s n :
  colon_minutes s = Some n →
  ∃ m1 m2 post, s = String ":" (String m1 (String m2 post))
    ∧ is_digit m1 = true ∧ is_digit m2 = true ∧ n = 3%nat.
Proof.
  unfold colon_minutes. destruct s as [|c [|m1 [|m2 post]]]; try done.
  destruct (Ascii.eqb c ":") eqn:Hc; [|done].
  apply Ascii.eqb_eq in Hc as ->.
  destruct (is_digit m1) eqn:H1; [|done].
  destruct (is_digit m2) eqn:H2; [|done].
  intros [= <-]. by exists m1, m2, post.
Qed.

Lemma spaces_sound k s n :
  spaces k s = Some n →
  ∃ ws rest m, s = ws +:+ rest ∧ all_chars is_space ws ∧ k rest = Some m
               ∧ n = (String.length ws + m)%nat.
Proof.
  assert (∀ s n, k s = Some n → ∃ ws rest m, s = ws +:+ rest
            ∧ all_chars is_space ws ∧ k rest = Some m
            ∧ n = (String.length ws + m)%nat) as Hstop.
  { intros s' n' H. exists EmptyString, s', n'. eauto using all_chars_nil. }
  revert n. induction s as [|c s IH]; intros n; simpl; [by apply Hstop|].
  destruct (is_space c) eqn:Hc; [|by apply Hstop].
  destruct (spaces k s) as [m|] eqn:Hs; [|by apply Hstop].
  intros [= <-]. destruct (IH m eq_refl) as (ws & rest & m' & -> & Hws & Hk & ->).
  exists (String c ws), rest, m'. split; [done|]. split; [|done].
  by apply all_chars_cons.
Qed.

Lemma spaces_complete k ws rest :
  all_chars is_space ws → is_Some (k rest) → is_Some (spaces k (ws +:+ rest)).
Proof.
  intros Hws Hk. induction ws as [|c ws IH].
  - rewrite app_empty_l. destruct rest as [|c r]; simpl; [done|].
    destruct (is_space c); [|done]. by destruct (spaces k r).
  - apply all_chars_cons in Hws as [Hc Hws]. rewrite app_cons. simpl. rewrite Hc.
    by destruct (IH Hws) as [m ->].
Qed.

Lemma meridiem_sound x s n :
  meridiem x s = Some n →
  ∃ a m post, s = String a (String m post) ∧ ci a x = true ∧ ci m "m" = true
              ∧ n = 2%nat.
Proof.
  unfold meridiem. destruct s as [|a [|m post]]; try done.
  destruct (ci a x) eqn:Ha; [|done]. destruct (ci m "m") eqn:Hm; [|done].
  intros [= <-]. by exists a, m, post.
Qed.

Lemma clock_sound s n :
  digits12 colon_minutes s = Some n →
  ∃ lit post, s = lit +:+ post ∧ String.length lit = n ∧ time_literal lit.
Proof.
  intros H. apply digits12_sound in H as (h & rest & m & -> & Hh & Hk & ->).
  apply colon_minutes_sound in Hk as (m1 & m2 & post & -> & H1 & H2 & ->).
  exists (h +:+ String ":" (String m1 (String m2 EmptyString))), post.
  split; [|split].
  - by rewrite app_assoc_str.
  - by rewrite length_app_str.
  - by constructor.
Qed.

Lemma meridiem_literal_sound x s n :
  x = "a"%char ∨ x = "p"%char →
  digits12 (spaces (meridiem x)) s = Some n →
  ∃ lit post, s = lit +:+ post ∧ String.length lit = n ∧ time_literal lit.
Proof.
  intros Hx H. apply digits12_sound in H as (h & rest & m & -> & Hh & Hk & ->).
  apply spaces_sound in Hk as (ws & rest' & m' & -> & Hws & Hk & ->).
  apply meridiem_sound in Hk as (a & b & post & -> & Ha & Hb & ->).
  exists (h +:+ ws +:+ String a (String b EmptyString)), post.
  split; [|split].
  - by rewrite !app_assoc_str.
  - by rewrite !length_app_str.
  - by econstructor.
Qed.

Lemma match_here_sound s n :
  match_here s = Some n →
  ∃ lit post, s = lit +:+ post ∧ String.length lit = n ∧ time_literal lit.
Proof.
  unfold match_here.
  destruct (digits12 colon_minutes s) as [n1|] eqn:H1.
  { intros [= <-]. by apply clock_sound. }
  destruct (digits12 (spaces (meridiem "a")) s) as [n2|] eqn:H2.
  { intros [= <-]. apply (meridiem_literal_sound "a"); auto. }
  apply (meridiem_literal_sound "p"); auto.
Qed.

Lemma match_here_complete lit post :
  time_literal lit → is_Some (match_here (lit +:+ post)).
Proof.
  intros Hlit. unfold match_here.
  assert (∀ x, x = "a"%char ∨ x = "p"%char → ∀ h ws a m,
            hour_digits h → all_chars is_space ws → ci a x = true →
            ci m "m" = true →
            is_Some (digits12 (spaces (meridiem x))
                       ((h +:+ ws +:+ String a (String m EmptyString)) +:+ post)))
    as Hmer.
  { intros x _ h ws a m Hh Hws Ha Hm. rewrite !app_assoc_str.
    apply digits12_complete; [done|]. apply spaces_complete; [done|].
    rewrite !app_cons, app_empty_l. unfold meridiem. rewrite Ha, Hm. eauto. }
  destruct Hlit as [h m1 m2 Hh H1 H2|h ws a m x Hh Hws Hx Ha Hm].
  - assert (is_Some (digits12 colon_minutes
              ((h +:+ String ":" (String m1 (String m2 EmptyString))) +:+ post)))
      as [n ->]; [|eauto].
    rewrite app_assoc_str. apply digits12_complete; [done|].
    rewrite !app_cons, app_empty_l. unfold colon_minutes. simpl. rewrite H1, H2. eauto.
  - destruct (digits12 colon_minutes _); [eauto|].
    destruct Hx as [-> | ->].
    + by destruct (Hmer "a"%char (or_introl eq_refl) h ws a m) as [n ->].
    + destruct (digits12 (spaces (meridiem "a")) _); [eauto|].
      by apply Hmer; auto.
Qed.

Lemma time_match_unfold text :
  time_match text
  = match match_here text with
    | Some n => Some (substring 0 n text)
    | None =>
        match text with
        | String _ text' => time_match text'
        | EmptyString => None
        end
    end.
Proof. by destruct text. Qed.

Lemma match_here_leftmost text n :
  match_here text = Some n →
  leftmost_literal text EmptyString (substring 0 n text).
Proof.
  intros Hm. apply match_here_sound in Hm as (l & post & -> & <- & Hl).
  rewrite substring_app. split; [by exists post|]. split; [done|].
  intros; simpl; lia.
Qed.

(** [time_match] returns the leftmost literal of the pattern, and finds
    one whenever the text holds one. *)
Lemma time_match_leftmost text lit :
  time_match text = Some lit → ∃ pre, leftmost_literal text pre lit.
Proof.
  revert lit. induction text as [|c text IH]; intros lit;
    rewrite time_match_unfold;
    destruct (match_here _) as [n|] eqn:Hm; try done.
  - intros H. exists EmptyString.
    replace lit with (substring 0 n (String c text)) by congruence.
    by apply match_here_leftmost.
  - intros H. destruct (IH _ H) as (pre & [post ->] & Hl & Hleft).
    exists (String c pre). split; [by exists post|]. split; [done|].
    intros [|c' pre'] lit' post' E Hl'.
    + rewrite app_empty_l in E.
      destruct (match_here_complete lit' post' Hl') as [n Hn].
      rewrite <- E in Hn. congruence.
    + rewrite app_cons in E. injection E as -> E.
      simpl. apply le_n_S. by eapply Hleft.
Qed.

Lemma time_match_complete text pre lit post :
  text = pre +:+ lit +:+ post → time_literal lit → is_Some (time_match text).
Proof.
  intros -> Hl. induction pre as [|c pre IH]; rewrite time_match_unfold.
  - rewrite app_empty_l. destruct (match_here_complete lit post Hl) as [n ->]. eauto.
  - destruct (match_here _); [eauto|]. by rewrite app_cons.
Qed.

(** The character classes of the pattern are disjoint. *)
Lemma digit_not_other c :
  is_digit c = true →
  is_space c = false ∧ Ascii.eqb c ":" = false
  ∧ ci c "a" = false ∧ ci c "p" = false.
Proof. destruct c as [[] [] [] [] [] [] [] []]; by intros [=]. Qed.

Lemma space_not_other c :
  is_space c = true →
  is_digit c = false ∧ Ascii.eqb c ":" = false
  ∧ ci c "a" = false ∧ ci c "p" = false.
Proof. destruct c as [[] [] [] [] [] [] [] []]; by intros [=]. Qed.

Lemma letter_not_other c x :
  x = "a"%char ∨ x = "p"%char → ci c x = true →
  is_digit c = false ∧ is_space c = false ∧ Ascii.eqb c ":" = false
  ∧ (x = "p"%char → ci c "a" = false).
Proof.
  intros [-> | ->]; destruct c as [[] [] [] [] [] [] [] []]; by intros [=].
Qed.

Lemma meridiem_tail_head x s :
  x = "a"%char ∨ x = "p"%char → meridiem_tail x s →
  ∃ c r, s = String c r ∧ is_digit c = false ∧ Ascii.eqb c ":" = false.
Proof.
  intros Hx (ws & a & m & post & -> & Hws & Ha & Hm).
  destruct ws as [|c ws].
  - exists a, (String m post). split; [done|].
    by destruct (letter_not_other a x Hx Ha) as (? & _ & ? & _).
  - exists c, (ws +:+ String a (String m post)). split; [done|].
    apply all_chars_cons in Hws as [Hc _].
    by destruct (space_not_other c Hc) as (? & ? & _).
Qed.

Lemma spaces_meridiem x s :
  x = "a"%char ∨ x = "p"%char →
  ∀ ws a m post, s = ws +:+ String a (String m post) →
  all_chars is_space ws → ci a x = true → ci m "m" = true →
  spaces (meridiem x) s = Some (String.length ws + 2)%nat.
Proof.
  intros Hx ws. revert s. induction ws as [|c ws IH]; intros s a m post -> Hws Ha Hm.
  - rewrite app_empty_l. simpl.
    destruct (letter_not_other a x Hx Ha) as (_ & -> & _).
    unfold meridiem. by rewrite Ha, Hm.
  - apply all_chars_cons in Hws as [Hc Hws]. rewrite app_cons. simpl.
    by rewrite Hc, (IH _ a m post eq_refl Hws Ha Hm).
Qed.

Lemma spaces_meridiem_other s :
  meridiem_tail "p" s → spaces (meridiem "a") s = None.
Proof.
  intros (ws & a & m & post & -> & Hws & Ha & Hm).
  induction ws as [|c ws IH].
  - rewrite app_empty_l. simpl.
    destruct (letter_not_other a "p" (or_intror eq_refl) Ha) as (_ & -> & _ & Hna).
    unfold meridiem. by rewrite Hna.
  - apply all_chars_cons in Hws as [Hc Hws]. rewrite app_cons. simpl.
    rewrite Hc, (IH Hws). unfold meridiem.
    destruct (space_not_other c Hc) as (_ & _ & -> & _).
    by destruct (ws +:+ String a (String m post)).
Qed.

(** After the hour digits, a matcher that refuses digits. *)
Lemma digits12_exact k h rest n :
  hour_digits h → k rest = Some n →
  (∀ c r, rest = String c r → is_digit c = false) →
  digits12 k (h +:+ rest) = Some (String.length h + n)%nat.
Proof.
  intros Hh Hk Hrest.
  apply hour_digits_inv in Hh as [(d1 & -> & H1)|(d1 & d2 & -> & H1 & H2)].
  - rewrite app_cons, app_empty_l. unfold digits12. rewrite H1, Hk. simpl.
    destruct rest as [|c r]; [done|]. by rewrite (Hrest c r eq_refl).
  - rewrite !app_cons, app_empty_l. unfold digits12. by rewrite H1, H2, Hk.
Qed.

Lemma digits12_none k h rest :
  hour_digits h → k rest = None →
  (∀ c r, rest = String c r → is_digit c = false) →
  (∀ d r, is_digit d = true → k (String d r) = None) →
  digits12 k (h +:+ rest) = None.
Proof.
  intros Hh Hk Hrest Hd.
  apply hour_digits_inv in Hh as [(d1 & -> & H1)|(d1 & d2 & -> & H1 & H2)].
  - rewrite app_cons, app_empty_l. unfold digits12. rewrite H1, Hk. simpl.
    destruct rest as [|c r]; [done|]. by rewrite (Hrest c r eq_refl).
  - rewrite !app_cons, app_empty_l. unfold digits12.
    by rewrite H1, H2, Hk, (Hd d2 rest H2).
Qed.

Lemma colon_minutes_digit d r : is_digit d = true → colon_minutes (String d r) = None.
Proof.
  intros Hd. unfold colon_minutes.
  destruct (digit_not_other d Hd) as (_ & -> & _). by destruct r as [|? [|? ?]].
Qed.

Lemma spaces_meridiem_digit x d r :
  x = "a"%char ∨ x = "p"%char → is_digit d = true →
  spaces (meridiem x) (String d r) = None.
Proof.
  intros Hx Hd. simpl. destruct (digit_not_other d Hd) as (-> & _ & Ha & Hp).
  unfold meridiem. destruct r as [|m r]; [done|].
  by destruct Hx as [-> | ->]; rewrite ?Ha, ?Hp.
Qed.

(** At the start of a literal, [match_here] consumes exactly the literal. *)
Lemma match_here_exact lit post :
  time_literal lit → match_here (lit +:+ post) = Some (String.length lit).
Proof.
  intros Hlit. unfold match_here.
  destruct Hlit as [h m1 m2 Hh H1 H2|h ws a m x Hh Hws Hx Ha Hm].
  - rewrite app_assoc_str.
    rewrite (digits12_exact colon_minutes h _ 3 Hh).
    + by rewrite length_app_str.
    + rewrite !app_cons, app_empty_l. unfold colon_minutes. simpl. by rewrite H1, H2.
    + by intros c r [= <- _].
  - rewrite !app_assoc_str, !app_cons, app_empty_l.
    assert (meridiem_tail x (ws +:+ String a (String m post))) as Ht
      by by exists ws, a, m, post.
    destruct (meridiem_tail_head x _ Hx Ht) as (c & r & E & Hc & Hcolon).
    assert (∀ c' r', ws +:+ String a (String m post) = String c' r' →
              is_digit c' = false) as Hnd.
    { intros c' r' E'. rewrite E in E'. by injection E' as <- _. }
    rewrite (digits12_none colon_minutes h _ Hh); [|..|done|].
    2:{ rewrite E. unfold colon_minutes. rewrite Hcolon. by destruct r as [|? [|? ?]]. }
    2:{ intros d r' Hd. by apply colon_minutes_digit. }
    rewrite !length_app_str. simpl String.length.
    destruct Hx as [-> | ->].
    + rewrite (digits12_exact _ h _ _ Hh
                 (spaces_meridiem "a" _ (or_introl eq_refl) ws a m post eq_refl
                    Hws Ha Hm) Hnd).
      done.
    + rewrite (digits12_none (spaces (meridiem "a")) h _ Hh
                 (spaces_meridiem_other _ Ht) Hnd).
      2:{ intros d r' Hd. apply spaces_meridiem_digit; auto. }
      rewrite (digits12_exact _ h _ _ Hh
                 (spaces_meridiem "p" _ (or_intror eq_refl) ws a m post eq_refl
                    Hws Ha Hm) Hnd).
      done.
Qed.

Lemma app_same_length s1 s2 t1 t2 :
  s1 +:+ t1 = s2 +:+ t2 → String.length s1 = String.length s2 →
  s1 = s2 ∧ t1 = t2.
Proof.
  revert s2. induction s1 as [|c s1 IH]; intros [|c' s2] E Hlen; try done.
  rewrite !app_cons in E. injection E as -> E. injection Hlen as Hlen.
  by destruct (IH _ E Hlen) as [-> ->].
Qed.

(** Two literals that start at one position are one literal. *)
Lemma time_literal_unique l1 l2 p1 p2 :
  time_literal l1 → time_literal l2 → l1 +:+ p1 = l2 +:+ p2 → l1 = l2.
Proof.
  intros H1 H2 E.
  pose proof (match_here_exact l1 p1 H1) as M1.
  pose proof (match_here_exact l2 p2 H2) as M2.
  rewrite E in M1. rewrite M1 in M2. injection M2 as M.
  by destruct (app_same_length _ _ _ _ E M).
Qed.

(** The leftmost literal of a text is unique. *)
Lemma leftmost_literal_unique text pre1 lit1 pre2 lit2 :
  leftmost_literal text pre1 lit1 → leftmost_literal text pre2 lit2 →
  pre1 = pre2 ∧ lit1 = lit2.
Proof.
  intros ([post1 E1] & L1 & Hl1) ([post2 E2] & L2 & Hl2).
  pose proof (Hl1 _ _ _ E2 L2). pose proof (Hl2 _ _ _ E1 L1).
  assert (String.length pre1 = String.length pre2) as Hlen by lia.
  rewrite E1 in E2. destruct (app_same_length _ _ _ _ E2 Hlen) as [-> E].
  split; [done|]. by eapply time_literal_unique.
Qed.

(* ===================================================================== *)
(** * The wake time *)
(* ===================================================================== *)

Section WakeFacts.

Variable text : string.

Lemma wakeTime_after_wake_step x :
  wakeTime (habits_of (mood_step text (project_step text (learning_step text
    (task_step text (workout_step text x))))))
  = wakeTime (habits_of x).
Proof.
  unfold mood_step, project_step, learning_step, task_step, workout_step, with_mood.
  repeat case_match; reflexivity.
Qed.

Lemma insights_after_wake_step i x :
  In i (insights x) →
  In i (insights (mood_step text (project_step text (learning_step text
    (task_step text (workout_step text x)))))).
Proof.
  unfold mood_step, project_step, learning_step, task_step, workout_step, with_mood.
  intros H. repeat case_match; simpl; rewrite ?in_app_iff; auto.
Qed.

End WakeFacts.

(** C3, as the code has it: when the lower-cased text includes "wake" or
    "morning" and the text holds a literal of the time pattern,
    [habits.wakeTime] is the leftmost such literal (there is one only), as
    written in the text and not normalized, and the insight
    "Wake time noted: <literal>" is among the insights. *)
Theorem C3_wake_time (text : string) :
  wake_keyword text = true →
  (∃ pre l post, text = pre +:+ l +:+ post ∧ time_literal l) →
  ∃ pre lit,
    leftmost_literal text pre lit
    ∧ (∀ pre' lit', leftmost_literal text pre' lit' → pre' = pre ∧ lit' = lit)
    ∧ wakeTime (habits_of (extract text)) = Some lit
    ∧ In ("Wake time noted: " +:+ lit) (insights (extract text)).
Proof.
  intros Hw (pre0 & l & post & E & Hl).
  destruct (time_match_complete text pre0 l post E Hl) as [lit Hlit].
  destruct (time_match_leftmost text lit Hlit) as [pre Hpre].
  exists pre, lit. split; [done|].
  split; [intros pre' lit' H'; by eapply leftmost_literal_unique|].
  unfold extract. rewrite wakeTime_after_wake_step.
  unfold wake_keyword, lowerText in Hw.
  split.
  - unfold wake_step, lowerText. by rewrite Hw, Hlit.
  - apply insights_after_wake_step. unfold wake_step, lowerText.
    rewrite Hw, Hlit. simpl. by left.
Qed.

Lemma C3_wake_time_witness :
  ∃ pre lit,
    leftmost_literal "I wake up at 7:30 am" pre lit
    ∧ (∀ pre' lit', leftmost_literal "I wake up at 7:30 am" pre' lit' →
         pre' = pre ∧ lit' = lit)
    ∧ wakeTime (habits_of (extract "I wake up at 7:30 am")) = Some lit
    ∧ In ("Wake time noted: " +:+ lit) (insights (extract "I wake up at 7:30 am")).
Proof.
  apply (C3_wake_time "I wake up at 7:30 am"); [reflexivity|].
  exists "I wake up at ", "7:30", " am". split; [reflexivity|].
  apply (literal_clock "7" "3" "0"); [|reflexivity..].
  split; [by left|]. intros c [<-|[]]. reflexivity.
Defined.

(** C3 as stated fails: "I woke up at 7:30 am" has neither "wake" nor
    "morning" in it, so no wake time is set; and where the keyword is
    present, the literal is "7:30", without the "am". *)
Lemma C3_counterexample :
  ¬ (∃ w, wakeTime (habits_of (extract "I woke up at 7:30 am")) = Some w
          ∧ includes w "7:30 am" = true)
  ∧ insights (extract "I woke up at 7:30 am") = []
  ∧ wakeTime (habits_of (extract "I wake up at 7:30 am")) = Some "7:30".
Proof.
  split; [|split]; [|reflexivity..].
  intros (w & Hw & _). vm_compute in Hw. discriminate.
Qed.

(* ===================================================================== *)
(** * The reference codec reads back what it writes *)
(* ===================================================================== *)

Module JsonFacts.
Import Json.

(** *** String literals *)

Lemma read_write_char c t :
  read_chars (write_char c t)
  = '(t', r) ← read_chars t; Some (String c t', r).
Proof.
  destruct c as [[] [] [] [] [] [] [] []]; reflexivity.
Qed.

Lemma read_write_chars s rest :
  read_chars (write_chars s (String quote rest)) = Some (s, rest).
Proof.
  induction s as [|c s IH]; [reflexivity|].
  cbn [write_chars]. by rewrite read_write_char, IH.
Qed.

Lemma read_write_string s rest :
  read_string (write_string s rest) = Some (s, rest).
Proof. apply read_write_chars. Qed.

(** *** Numbers *)

Lemma read_uint_stop s : no_digit s → read_uint s = (Decimal.Nil, s).
Proof. destruct s as [|c s]; [done|]. simpl. by intros ->. Qed.

Lemma read_write_uint d rest :
  no_digit rest → read_uint (write_uint d rest) = (d, rest).
Proof.
  intros Hrest. induction d as [|d IH|d IH|d IH|d IH|d IH|d IH|d IH|d IH|d IH|d IH];
    [by apply read_uint_stop|..];
    cbn [write_uint]; cbn [read_uint]; rewrite IH; reflexivity.
Qed.

Lemma nzhead_head d :
  match Decimal.nzhead d with
  | Decimal.D0 _ => False
  | _ => True
  end.
Proof. induction d; simpl; done. Qed.

Lemma canonical_unorm d : canonical (Decimal.unorm d) = true.
Proof.
  unfold Decimal.unorm. pose proof (nzhead_head d) as H.
  by destruct (Decimal.nzhead d).
Qed.

Lemma to_int_norm n : Decimal.norm (Z.to_int n) = Z.to_int n.
Proof. by rewrite <- DecimalZ.to_of, DecimalZ.of_to. Qed.

Lemma canonical_to_int n :
  match Z.to_int n with
  | Decimal.Pos d | Decimal.Neg d => canonical d = true
  end.
Proof.
  pose proof (to_int_norm n) as H. destruct (Z.to_int n) as [d|d]; simpl in H.
  - injection H as H. rewrite <- H. apply canonical_unorm.
  - pose proof (nzhead_head d) as Hh.
    destruct (Decimal.nzhead d) eqn:E; try done; by injection H as <-.
Qed.

(** A canonical digit run starts with a digit. *)
Lemma write_uint_head d rest :
  canonical d = true →
  ∃ c r, write_uint d rest = String c r ∧ is_digit c = true.
Proof. destruct d; [done|..]; intros _; simpl; eauto. Qed.

Lemma is_digit_cases c :
  is_digit c = true →
  Ascii.eqb c "-" = false ∧ Ascii.eqb c "n" = false ∧ Ascii.eqb c "t" = false
  ∧ Ascii.eqb c "f" = false ∧ Ascii.eqb c quote = false
  ∧ Ascii.eqb c "[" = false ∧ Ascii.eqb c "{" = false ∧ is_ws c = false
  ∧ Ascii.eqb c "]" = false ∧ Ascii.eqb c "}" = false.
Proof. destruct c as [[] [] [] [] [] [] [] []]; by intros [=]. Qed.

Lemma read_write_number n rest :
  no_digit rest → read_number (write_number n rest) = Some (n, rest).
Proof.
  intros Hrest. unfold write_number.
  pose proof (canonical_to_int n) as Hc. pose proof (DecimalZ.of_to n) as Hn.
  destruct (Z.to_int n) as [d|d].
  - destruct (write_uint_head d rest Hc) as (c & r & E & Hd).
    unfold read_number. rewrite E.
    destruct (is_digit_cases c Hd) as (-> & _).
    by rewrite <- E, read_write_uint, Hc, Hn.
  - unfold read_number. rewrite Ascii.eqb_refl.
    by rewrite read_write_uint, Hc, Hn.
Qed.

(** The text of a number starts with a digit or the minus sign. *)
Lemma write_number_head n rest :
  ∃ c r, write_number n rest = String c r
         ∧ (is_digit c = true ∨ c = "-"%char).
Proof.
  unfold write_number. pose proof (canonical_to_int n) as Hc.
  destruct (Z.to_int n) as [d|d]; [|eauto].
  destruct (write_uint_head d rest Hc) as (c & r & -> & ?). eauto.
Qed.


(** *** Sizes *)

Lemma nodes_pos v : (1 ≤ nodes v)%nat.
Proof. destruct v; simpl; lia. Qed.

Lemma nodes_obj m :
  nodes (JObj m)
  = S (foldr (λ kv n, nodes kv.2 + n)%nat O (map_to_list m)).
Proof.
  cbn [nodes]. rewrite map_fold_foldr. f_equal.
  induction (map_to_list m) as [|[k v] l IH]; [done|]. simpl. by rewrite IH.
Qed.

Lemma nodes_item (l : list value) v :
  v ∈ l → (nodes v ≤ foldr (λ x n, nodes x + n) O l)%nat.
Proof.
  induction l as [|x l IH]; [by intros ?%elem_of_nil|].
  intros [->|H]%elem_of_cons; simpl; [lia|]. specialize (IH H). lia.
Qed.

Lemma nodes_length (l : list value) :
  (length l ≤ foldr (λ x n, nodes x + n) O l)%nat.
Proof.
  induction l as [|x l IH]; simpl; [done|]. pose proof (nodes_pos x). lia.
Qed.

Lemma nodes_member (l : list (string * value)) kv :
  kv ∈ l → (nodes kv.2 ≤ foldr (λ kv n, nodes kv.2 + n) O l)%nat.
Proof.
  induction l as [|x l IH]; [by intros ?%elem_of_nil|].
  intros [->|H]%elem_of_cons; simpl; [lia|]. specialize (IH H). lia.
Qed.

Lemma nodes_members_length (l : list (string * value)) :
  (length l ≤ foldr (λ kv n, nodes kv.2 + n) O l)%nat.
Proof.
  induction l as [|x l IH]; simpl; [done|]. pose proof (nodes_pos x.2). lia.
Qed.

(** *** Values *)

Lemma write_arr l rest :
  write (JArr l) rest = String "[" (write_list (map write l) (String "]" rest)).
Proof. reflexivity. Qed.

Lemma write_obj m rest :
  write (JObj m) rest
  = String "{" (write_list
                  (write_member <$> (prod_map id write <$> map_to_list m))
                  (String "}" rest)).
Proof. cbn [write]. by rewrite map_to_list_fmap. Qed.

Lemma opens_skip_ws s : opens s → skip_ws s = s.
Proof. intros (c & r & -> & Hc & _). simpl. by rewrite Hc. Qed.

Lemma write_opens v rest : opens (write v rest).
Proof.
  destruct v as [|[]|n|s|l|m]; try (by eexists _, _).
  destruct (write_number_head n rest) as (c & r & E & [Hd|Hm]);
    exists c, r; [|by subst c].
  by destruct (is_digit_cases c Hd) as (_&_&_&_&_&_&_&?&?&?).
Qed.

Lemma write_list_opens (ws : list (string → string)) rest :
  ws ≠ [] → (∀ w r, w ∈ ws → opens (w r)) → opens (write_list ws rest).
Proof.
  destruct ws as [|w [|w' ws]]; [done|..]; intros _ H; cbn [write_list];
    apply H; by left.
Qed.

Lemma read_write_number_value fuel n rest :
  no_digit rest → read (S fuel) (write_number n rest) = Some (JNum n, rest).
Proof.
  intros Hrest. pose proof (read_write_number n rest Hrest) as Hn.
  destruct (write_number_head n rest) as (c & r & E & Hc). rewrite E in *.
  assert (is_ws c = false ∧ Ascii.eqb c "n" = false ∧ Ascii.eqb c "t" = false
          ∧ Ascii.eqb c "f" = false ∧ Ascii.eqb c quote = false
          ∧ Ascii.eqb c "[" = false ∧ Ascii.eqb c "{" = false)
    as (Hws & H1 & H2 & H3 & H4 & H5 & H6).
  { destruct Hc as [Hd| ->]; [|done].
    by destruct (is_digit_cases c Hd) as (_&?&?&?&?&?&?&?&_). }
  cbn [read skip_ws]. by rewrite Hws, H1, H2, H3, H4, H5, H6, Hn.
Qed.

Section Loops.

Variable rd : string → option (value * string).

Lemma read_items_more k s v r :
  rd s = Some (v, String "," r) →
  read_items rd (S k) s = '(vs, r') ← read_items rd k r; Some (v :: vs, r').
Proof. intros H. cbn [read_items]. by rewrite H. Qed.

Lemma read_items_last k s v r :
  rd s = Some (v, String "]" r) → read_items rd (S k) s = Some ([v], r).
Proof. intros H. cbn [read_items]. by rewrite H. Qed.

Lemma read_members_more k acc s key v r r' :
  read_string (skip_ws s) = Some (key, String ":" r) →
  rd r = Some (v, String "," r') →
  read_members rd (S k) acc s = read_members rd k (<[key:=v]> acc) r'.
Proof. intros H1 H2. cbn [read_members]. rewrite H1. simpl. by rewrite H2. Qed.

Lemma read_members_last k acc s key v r r' :
  read_string (skip_ws s) = Some (key, String ":" r) →
  rd r = Some (v, String "}" r') →
  read_members rd (S k) acc s = Some (<[key:=v]> acc, r').
Proof. intros H1 H2. cbn [read_members]. rewrite H1. simpl. by rewrite H2. Qed.

Lemma write_list_more (w w' : string → string) ws rest :
  write_list (w :: w' :: ws) rest
  = w (String "," (write_list (w' :: ws) rest)).
Proof. reflexivity. Qed.

Lemma read_write_items l k rest :
  l ≠ [] → (length l ≤ k)%nat → Forall (reads rd) l →
  read_items rd k (write_list (map write l) (String "]" rest))
  = Some (l, rest).
Proof.
  revert k. induction l as [|v [|v' l] IH]; intros k Hne Hk Hl; [done|..];
    destruct k as [|k]; simpl in Hk; try lia;
    apply Forall_cons in Hl as [Hv Hl].
  - apply read_items_last. by apply Hv.
  - change (map write (v :: v' :: l)) with (write v :: write v' :: map write l).
    rewrite write_list_more.
    rewrite (read_items_more k _ v _ (Hv (String "," _) eq_refl)).
    change (write v' :: map write l) with (map write (v' :: l)).
    rewrite IH; [done|done|simpl; lia|done].
Qed.

Lemma read_member_key key (w : string → string) rest :
  read_string (skip_ws (write_member (key, w) rest))
  = Some (key, String ":" (w rest)).
Proof. apply read_write_string. Qed.

Lemma read_write_members (l : list (string * value)) k acc rest :
  l ≠ [] → (length l ≤ k)%nat → Forall (λ kv, reads rd kv.2) l →
  read_members rd k acc
    (write_list (write_member <$> (prod_map id write <$> l)) (String "}" rest))
  = Some (foldl (λ a kv, <[kv.1 := kv.2]> a) acc l, rest).
Proof.
  revert k acc.
  induction l as [|[key v] [|kv' l] IH]; intros k acc Hne Hk Hl; [done|..];
    destruct k as [|k]; simpl in Hk; try lia;
    apply Forall_cons in Hl as [Hv Hl]; simpl in Hv.
  - apply (read_members_last k acc _ key v _ rest (read_member_key _ _ _)).
    by apply Hv.
  - change (write_member <$> (prod_map id write <$> (key, v) :: kv' :: l))
      with (write_member (key, write v)
              :: write_member (prod_map id write kv')
              :: (write_member <$> (prod_map id write <$> l))).
    rewrite write_list_more.
    rewrite (read_members_more k acc _ key v _ _ (read_member_key _ _ _)
               (Hv (String "," _) eq_refl)).
    change (write_member (prod_map id write kv')
              :: (write_member <$> (prod_map id write <$> l)))
      with (write_member <$> (prod_map id write <$> kv' :: l)).
    rewrite IH; [done|done|simpl; lia|done].
Qed.

End Loops.


(** Adding the members of a mapping, in the order it lists them, to the
    empty mapping gives the mapping. *)
Lemma members_lookup (l : list (string * value)) (acc : gmap string value) k :
  NoDup l.*1 →
  foldl (λ a kv, <[kv.1 := kv.2]> a) acc l !! k
  = match (list_to_map l : gmap string value) !! k with
    | Some v => Some v
    | None => acc !! k
    end.
Proof.
  revert acc. induction l as [|[k0 v0] l IH]; intros acc Hnd; [done|].
  apply NoDup_cons in Hnd as [Hk0 Hnd]. simpl. rewrite IH by done.
  destruct (decide (k = k0)) as [->|Hne].
  - rewrite lookup_insert_eq. rewrite (not_elem_of_list_to_map_1 l k0) by done.
    by rewrite lookup_insert_eq.
  - by rewrite !lookup_insert_ne.
Qed.

Lemma members_of_map (m : gmap string value) :
  foldl (λ a kv, <[kv.1 := kv.2]> a) ∅ (map_to_list m) = m.
Proof.
  apply map_eq. intros k.
  rewrite members_lookup by apply NoDup_fst_map_to_list.
  rewrite list_to_map_to_list, lookup_empty. by destruct (m !! k).
Qed.

(** Reading with enough fuel gives back the value and the rest. *)
Lemma read_write_bounded n :
  ∀ v, (nodes v ≤ n)%nat → ∀ fuel rest, (nodes v ≤ fuel)%nat → no_digit rest →
  read fuel (write v rest) = Some (v, rest).
Proof.
  induction n as [|n IH]; intros v Hn fuel rest Hfuel Hrest.
  { pose proof (nodes_pos v). lia. }
  destruct fuel as [|fuel]; [pose proof (nodes_pos v); lia|].
  destruct v as [|[]|z|s|l|m]; try reflexivity.
  - by apply read_write_number_value.
  - change (read (S fuel) (write (JStr s) rest))
      with ('(t, r') ← read_chars (write_chars s (String quote rest));
            Some (JStr t, r')).
    by rewrite read_write_chars.
  - rewrite write_arr. cbn [nodes] in Hn, Hfuel.
    destruct l as [|v l]; [reflexivity|].
    assert (opens (write_list (map write (v :: l)) (String "]" rest))) as Ho.
    { apply write_list_opens; [done|].
      intros w r (x & -> & _)%list_elem_of_fmap. apply write_opens. }
    pose proof (opens_skip_ws _ Ho) as Hs.
    destruct Ho as (c & r & E & _ & Hc & _).
    change (read (S fuel) (String "[" ?t))
      with (match skip_ws t with
            | String c' r' =>
                if Ascii.eqb c' "]" then Some (JArr [], r')
                else '(vs, r'') ← read_items (read fuel) fuel t;
                     Some (JArr vs, r'')
            | EmptyString => None
            end).
    rewrite Hs, E, Hc, <- E.
    rewrite read_write_items; [done|done|..].
    + pose proof (nodes_length (v :: l)). lia.
    + apply Forall_forall. intros x Hx rest' Hrest'.
      pose proof (nodes_item (v :: l) x Hx). apply IH; [lia|lia|done].
  - rewrite write_obj. rewrite nodes_obj in Hn, Hfuel.
    destruct (map_to_list m) as [|kv l] eqn:Hm.
    { apply map_to_list_empty_iff in Hm as ->. reflexivity. }
    assert (opens (write_list
              (write_member <$> (prod_map id write <$> kv :: l))
              (String "}" rest))) as Ho.
    { apply write_list_opens; [done|].
      intros w r (x & -> & _)%list_elem_of_fmap. by eexists _, _. }
    pose proof (opens_skip_ws _ Ho) as Hs.
    destruct Ho as (c & r & E & _ & _ & Hc).
    change (read (S fuel) (String "{" ?t))
      with (match skip_ws t with
            | String c' r' =>
                if Ascii.eqb c' "}" then Some (JObj ∅, r')
                else '(m', r'') ← read_members (read fuel) fuel ∅ t;
                     Some (JObj m', r'')
            | EmptyString => None
            end).
    rewrite Hs, E, Hc, <- E.
    rewrite read_write_members; [|done|..].
    + by rewrite <- Hm, members_of_map.
    + pose proof (nodes_members_length (kv :: l)). lia.
    + apply Forall_forall. intros x Hx rest' Hrest'.
      pose proof (nodes_member (kv :: l) x Hx). apply IH; [lia|lia|done].
Qed.

(** *** The length of the text bounds the fuel needed *)

Lemma length_write_char c t :
  (S (String.length t) ≤ String.length (write_char c t))%nat.
Proof. destruct c as [[] [] [] [] [] [] [] []]; simpl; lia. Qed.

Lemma length_write_chars s t :
  (String.length t ≤ String.length (write_chars s t))%nat.
Proof.
  induction s as [|c s IH]; simpl; [done|].
  pose proof (length_write_char c (write_chars s t)). lia.
Qed.

Lemma length_write_uint d t :
  (String.length t ≤ String.length (write_uint d t))%nat.
Proof. induction d; simpl; lia. Qed.

Lemma length_write_number n t :
  (S (String.length t) ≤ String.length (write_number n t))%nat.
Proof.
  unfold write_number. pose proof (canonical_to_int n) as Hc.
  destruct (Z.to_int n) as [d|d].
  - destruct d; try done; simpl;
      match goal with |- context [write_uint ?d t] =>
        pose proof (length_write_uint d t) end; lia.
  - simpl. pose proof (length_write_uint d t). lia.
Qed.

Lemma length_write_list (ws : list (string → string)) (sizes : list nat) t :
  Forall2 (λ w k, ∀ r, (k + String.length r ≤ String.length (w r))%nat) ws sizes →
  (foldr plus O sizes + String.length t ≤ String.length (write_list ws t))%nat.
Proof.
  intros H. induction H as [|w k ws sizes Hw H IH]; [simpl; lia|].
  destruct ws as [|w' ws].
  - apply Forall2_nil_inv_l in H as ->. simpl. specialize (Hw t). lia.
  - rewrite write_list_more. cbn [foldr].
    specialize (Hw (String "," (write_list (w' :: ws) t))).
    cbn [String.length] in Hw. lia.
Qed.

Lemma length_write n :
  ∀ v, (nodes v ≤ n)%nat → ∀ t,
  (nodes v + String.length t ≤ String.length (write v t))%nat.
Proof.
  induction n as [|n IH]; intros v Hn t.
  { pose proof (nodes_pos v). lia. }
  destruct v as [|[]|z|s|l|m];
    try (cbn [write nodes]; rewrite length_app_str; simpl; lia).
  - apply length_write_number.
  - change (write (JStr s) t) with (String quote (write_chars s (String quote t))).
    pose proof (length_write_chars s (String quote t)) as H.
    cbn [nodes String.length] in *. lia.
  - rewrite write_arr. cbn [nodes] in *.
    pose proof (length_write_list (map write l) (map nodes l) (String "]" t)) as H.
    assert (foldr plus O (map nodes l) = foldr (λ x k, nodes x + k)%nat O l) as E.
    { clear. induction l; simpl; congruence. }
    rewrite E in H. simpl in *.
    assert (Forall2 (λ w k, ∀ r, (k + String.length r ≤ String.length (w r))%nat)
              (map write l) (map nodes l)) as HF; [|specialize (H HF); lia].
    apply Forall2_fmap, Forall_Forall2_diag, Forall_forall. intros x Hx r.
    pose proof (nodes_item l x Hx). apply IH. lia.
  - rewrite write_obj. rewrite nodes_obj in *.
    set (l := map_to_list m) in *. clearbody l.
    pose proof (length_write_list
                  (write_member <$> (prod_map id write <$> l))
                  ((λ kv, nodes kv.2) <$> l) (String "}" t)) as H.
    assert (foldr plus O ((λ kv, nodes kv.2) <$> l)
            = foldr (λ kv k, nodes kv.2 + k)%nat O l) as E.
    { clear. induction l as [|x l IHl]; [done|]. csimpl. by rewrite IHl. }
    rewrite E in H. simpl in *.
    assert (Forall2 (λ w k, ∀ r, (k + String.length r ≤ String.length (w r))%nat)
              (write_member <$> (prod_map id write <$> l))
              ((λ kv, nodes kv.2) <$> l)) as HF; [|specialize (H HF); lia].
    rewrite <- list_fmap_compose.
    apply Forall2_fmap, Forall_Forall2_diag, Forall_forall. intros [k x] Hx r.
    pose proof (nodes_member l (k, x) Hx) as Hk. simpl in Hk.
    unfold write_member, write_string. simpl.
    pose proof (length_write_chars k (String quote (String ":" (write x r)))).
    pose proof (IH x ltac:(lia) r). simpl in *. lia.
Qed.

(** The law the store asks of the codec. *)
Lemma reference_parse_stringify v : parse (stringify v) = Some v.
Proof.
  unfold parse, stringify.
  rewrite (read_write_bounded (nodes v)); [done|done| |done].
  pose proof (length_write (nodes v) v (le_n _) EmptyString). simpl in *. lia.
Qed.

Lemma reference_parse_empty : parse EmptyString = None.
Proof. reflexivity. Qed.

End JsonFacts.

(* ===================================================================== *)
(** * Properties of the local store *)
(* ===================================================================== *)

Section LocalFacts.

Variable JSON_parse : string → option value.
Variable JSON_stringify : value → string.

Lemma loadAllDaysLocal_eq w :
  loadAllDaysLocal JSON_parse w = (Ok (stored JSON_parse w), w).
Proof.
  unfold loadAllDaysLocal, try_catch, stored, getItem, mbind, M_bind.
  destruct (localStorage w !! STORAGE_KEY) as [[|c s]|]; try reflexivity.
  unfold parse. by destruct (JSON_parse (String c s)).
Qed.

Lemma readDayLocal_eq date w :
  readDayLocal JSON_parse date w
  = (match member (parsed (stored JSON_parse w)) date with
     | Ok rec => Ok (js_or rec JNull)
     | Throw err => Throw err
     end, w).
Proof.
  unfold readDayLocal, mbind, M_bind, lift. rewrite loadAllDaysLocal_eq.
  by destruct (member _ _).
Qed.

Lemma entry_eq date w :
  entry JSON_parse date w = (member (parsed (stored JSON_parse w)) date, w).
Proof.
  unfold entry, mbind, M_bind, lift. by rewrite loadAllDaysLocal_eq.
Qed.

Lemma upsertDayLocal_eq date data w :
  upsertDayLocal JSON_parse JSON_stringify date data w
  = match member (parsed (stored JSON_parse w)) date with
    | Ok old =>
        match assign (parsed (stored JSON_parse w)) date
                (merge (js_or old (JObj ∅)) data) with
        | Ok all' => (member all' date, saved JSON_stringify all' w)
        | Throw err => (Throw err, w)
        end
    | Throw err => (Throw err, w)
    end.
Proof.
  unfold upsertDayLocal, mbind, M_bind, lift. rewrite loadAllDaysLocal_eq.
  destruct (member _ _) as [old|]; [|done].
  by destruct (assign _ _ _).
Qed.

(** The local upsert on a store that holds a mapping. *)
Lemma upsertDayLocal_object date data w m :
  stored JSON_parse w = JObj m →
  let merged := merge (js_or (m !! date) (JObj ∅)) data in
  upsertDayLocal JSON_parse JSON_stringify date data w
  = (Ok (Some merged),
     saved JSON_stringify (Object (JObj (<[date := merged]> m)) ∅) w).
Proof.
  intros Hs merged. rewrite upsertDayLocal_eq, Hs. unfold member, assign. simpl.
  by rewrite lookup_insert_eq.
Qed.

End LocalFacts.

Section RoundTrip.

Variable JSON_parse : string → option value.
Variable JSON_stringify : value → string.

(** What the store needs of the codec: what was written is read back,
    and the empty text is not JSON. *)
Hypothesis parse_stringify : ∀ v, JSON_parse (JSON_stringify v) = Some v.
Hypothesis parse_empty : JSON_parse EmptyString = None.

Lemma stored_saved obj w :
  stored JSON_parse (saved JSON_stringify obj w) = json obj.
Proof.
  unfold stored, saved. simpl. rewrite lookup_insert_eq.
  destruct (JSON_stringify (json obj)) as [|c s] eqn:E.
  - specialize (parse_stringify (json obj)). congruence.
  - by rewrite <- E, parse_stringify.
Qed.

(** After an assignment at [date], the JSON content reads the same at
    every other date. *)
Lemma member_assign_ne all date date' x all' :
  date ≠ date' →
  assign (parsed all) date x = Ok all' →
  member (parsed (json all')) date' = member (parsed all) date'.
Proof.
  intros Hne. unfold assign, member.
  destruct all; simpl; intros [= <-]; simpl; try done.
  by rewrite lookup_insert_ne.
Qed.

Lemma member_assign_eq all date x all' :
  assign all date x = Ok all' → member all' date = Ok (Some x).
Proof.
  unfold assign, member.
  destruct (json all); intros [= <-]; simpl; by rewrite lookup_insert_eq.
Qed.

Lemma entry_upsert_ne date date' data w :
  date ≠ date' →
  (entry JSON_parse date'
     (upsertDayLocal JSON_parse JSON_stringify date data w).2).1
  = (entry JSON_parse date' w).1.
Proof.
  intros Hne. rewrite upsertDayLocal_eq, !entry_eq.
  destruct (member _ date) as [old|]; [|done].
  destruct (assign _ _ _) as [all'|] eqn:Ha; [|done].
  simpl. rewrite stored_saved. by eapply member_assign_ne.
Qed.

End RoundTrip.

(** The local operations do throw on a payload that is JSON but no mapping:
    on the text "null", [loadAllDaysLocal] returns null and the property
    access of [readDayLocal] is a TypeError. *)
Lemma readDayLocal_null_payload :
  let w := World {[ STORAGE_KEY := "null" ]} ∅ [] [] in
  loadAllDaysLocal Json.parse w = (Ok JNull, w)
  ∧ readDayLocal Json.parse a_day w = (Throw TypeError, w).
Proof. split; reflexivity. Qed.

(** C10: a local upsert at one date leaves the entry of every other date,
    its absence included, as it was; so [readDayLocal] answers for the
    other date as before. *)
Theorem C10_upsert_local_frame
    (JSON_parse : string → option value) (JSON_stringify : value → string)
    (parse_stringify : ∀ v, JSON_parse (JSON_stringify v) = Some v)
    (parse_empty : JSON_parse EmptyString = None)
    (w : world) (d d' : string) (p : value) :
  is_date d = true → is_date d' = true → d ≠ d' →
  let w' := (upsertDayLocal JSON_parse JSON_stringify d p w).2 in
  (entry JSON_parse d' w').1 = (entry JSON_parse d' w).1
  ∧ (readDayLocal JSON_parse d' w').1 = (readDayLocal JSON_parse d' w).1.
Proof.
  intros _ _ Hne w'.
  assert ((entry JSON_parse d' w').1 = (entry JSON_parse d' w).1) as H
    by by apply entry_upsert_ne.
  split; [done|]. rewrite !entry_eq in H. rewrite !readDayLocal_eq. simpl in *.
  by rewrite H.
Qed.

Lemma C10_upsert_local_frame_witness :
  let w := (upsertDayLocal Json.parse Json.stringify next_day notes_partial
              fresh).2 in
  let w' := (upsertDayLocal Json.parse Json.stringify a_day wake_partial w).2 in
  (entry Json.parse next_day w').1 = (entry Json.parse next_day w).1
  ∧ (readDayLocal Json.parse next_day w').1
    = (readDayLocal Json.parse next_day w).1.
Proof.
  apply (C10_upsert_local_frame Json.parse Json.stringify
           JsonFacts.reference_parse_stringify JsonFacts.reference_parse_empty
           (upsertDayLocal Json.parse Json.stringify next_day notes_partial
              fresh).2
           a_day next_day wake_partial); [reflexivity|reflexivity|discriminate].
Defined.

(** C9: whatever [localStorage] holds, [loadAllDaysLocal] returns; when the
    payload is missing, empty or not JSON it returns the empty mapping, and
    [readDayLocal] then answers null for every date. *)
Theorem C9_local_load_never_throws
    (JSON_parse : string → option value) (w : world) (d : string) :
  is_date d = true →
  (∃ all, loadAllDaysLocal JSON_parse w = (Ok all, w))
  ∧ (unreadable JSON_parse w →
       loadAllDaysLocal JSON_parse w = (Ok (JObj ∅), w)
       ∧ readDayLocal JSON_parse d w = (Ok JNull, w)).
Proof.
  intros _. split; [rewrite loadAllDaysLocal_eq; eauto|].
  intros Hu.
  assert (stored JSON_parse w = JObj ∅) as Hs.
  { unfold unreadable in Hu. unfold stored.
    destruct (localStorage w !! STORAGE_KEY) as [[|c s]|]; try done.
    destruct Hu as [Hu|Hu]; [done|]. by rewrite Hu. }
  by rewrite readDayLocal_eq, loadAllDaysLocal_eq, Hs.
Qed.

Lemma C9_local_load_never_throws_witness :
  (∃ all, loadAllDaysLocal Json.parse garbled = (Ok all, garbled))
  ∧ loadAllDaysLocal Json.parse garbled = (Ok (JObj ∅), garbled)
  ∧ readDayLocal Json.parse a_day garbled = (Ok JNull, garbled).
Proof.
  destruct (C9_local_load_never_throws Json.parse garbled a_day eq_refl)
    as [H1 H2].
  split; [exact H1|]. apply H2. vm_compute. right. reflexivity.
Defined.

(* ===================================================================== *)
(** * Properties of the fallback *)
(* ===================================================================== *)

Section FallbackFacts.

Variable JSON_parse : string → option value.
Variable JSON_stringify : value → string.
Variable e : env.

Hypothesis remote_on : remote e = true.

(** A failing request ends in the handler, with the error it failed with. *)
Lemma request_failure {A B} (serve : gmap string value → option A * gmap string value)
    (k : option A → M B) (handler : exn → M B) w err :
  next_failure w = Some err →
  try_catch ('(Response data error) ← request serve; check error;; k data)
    handler w
  = handler err (World (localStorage w) (flowstate_days w) (tail (network w))
                   (console w)).
Proof.
  unfold next_failure, try_catch, request, mbind, M_bind.
  destruct (head (network w)) as [[|err'|err']|]; intros [= ->]; reflexivity.
Qed.

Lemma loadAllDays_failure w err :
  next_failure w = Some err →
  loadAllDays JSON_parse e w
  = loadAllDaysLocal JSON_parse
      (after_failure "Supabase loadAllDays failed, using local fallback" err w).
Proof.
  intros H. unfold loadAllDays, select_all. rewrite remote_on.
  by rewrite (request_failure _ _ _ w err H).
Qed.

Lemma upsertDay_failure date data w err :
  next_failure w = Some err →
  upsertDay JSON_parse JSON_stringify e date data w
  = upsertDayLocal JSON_parse JSON_stringify date data
      (after_failure "Supabase upsert failed, using local fallback" err w).
Proof.
  intros H. unfold upsertDay, upsert_select. rewrite remote_on.
  by rewrite (request_failure _ _ _ w err H).
Qed.

Lemma readDay_failure date w err :
  next_failure w = Some err →
  readDay JSON_parse e date w
  = readDayLocal JSON_parse date
      (after_failure "Supabase read failed, using local fallback" err w).
Proof.
  intros H. unfold readDay, select_maybeSingle. rewrite remote_on.
  by rewrite (request_failure _ _ _ w err H).
Qed.

End FallbackFacts.

(** The failure is reported on the console, once, and the table is left
    alone. *)
Lemma loadAllDays_failure_warns JSON_parse e w err :
  remote e = true → next_failure w = Some err →
  let w' := (loadAllDays JSON_parse e w).2 in
  console w'
  = console w ++ [("Supabase loadAllDays failed, using local fallback", err)]
  ∧ flowstate_days w' = flowstate_days w.
Proof.
  intros Hr Hf. cbv zeta.
  by rewrite (loadAllDays_failure _ e Hr w err Hf), loadAllDaysLocal_eq.
Qed.

(** The local operations look at [localStorage] only. *)
Lemma stored_after_failure JSON_parse msg err w :
  stored JSON_parse (after_failure msg err w) = stored JSON_parse w.
Proof. reflexivity. Qed.

(** C2: with the remote backend selected, when the request of
    [loadAllDays], [upsertDay] or [readDay] fails (the promise rejects or
    an error is returned), the caller gets what the local operation gives
    on the same [localStorage], which is left as the local operation leaves
    it.  [loadAllDays] then always returns; [upsertDay] and [readDay] return
    whenever the local payload is a mapping. *)
Theorem C2_remote_failure_falls_back
    (JSON_parse : string → option value) (JSON_stringify : value → string)
    (e : env) (w : world) (err : exn) (d : string) (p : value) :
  remote e = true → next_failure w = Some err → is_date d = true →
  same_locally (loadAllDays JSON_parse e w) (loadAllDaysLocal JSON_parse w)
  ∧ same_locally (upsertDay JSON_parse JSON_stringify e d p w)
                 (upsertDayLocal JSON_parse JSON_stringify d p w)
  ∧ same_locally (readDay JSON_parse e d w) (readDayLocal JSON_parse d w)
  ∧ (∃ all, (loadAllDays JSON_parse e w).1 = Ok all)
  ∧ ((∃ m, stored JSON_parse w = JObj m) →
       (∃ r, (upsertDay JSON_parse JSON_stringify e d p w).1 = Ok (Some r))
       ∧ (∃ r, (readDay JSON_parse e d w).1 = Ok r)).
Proof.
  intros Hr Hf _.
  rewrite (loadAllDays_failure _ e Hr w err Hf),
    (upsertDay_failure _ _ e Hr d p w err Hf),
    (readDay_failure _ e Hr d w err Hf).
  rewrite !loadAllDaysLocal_eq, !readDayLocal_eq, !upsertDayLocal_eq,
    !stored_after_failure.
  repeat split; simpl; eauto.
  - destruct (member _ _); [|done]. by destruct (assign _ _ _).
  - destruct (member _ _); [|done]. by destruct (assign _ _ _).
  - destruct H as [m ->]. unfold member, assign. simpl.
    rewrite lookup_insert_eq. eauto.
  - destruct H as [m ->]. simpl. eauto.
Qed.

Lemma C2_remote_failure_falls_back_witness :
  same_locally (loadAllDays Json.parse supabase_env offline)
               (loadAllDaysLocal Json.parse offline)
  ∧ same_locally
      (upsertDay Json.parse Json.stringify supabase_env a_day wake_partial offline)
      (upsertDayLocal Json.parse Json.stringify a_day wake_partial offline)
  ∧ same_locally (readDay Json.parse supabase_env a_day offline)
                 (readDayLocal Json.parse a_day offline)
  ∧ (∃ all, (loadAllDays Json.parse supabase_env offline).1 = Ok all)
  ∧ (∃ r, (upsertDay Json.parse Json.stringify supabase_env a_day wake_partial
             offline).1 = Ok (Some r))
  ∧ (∃ r, (readDay Json.parse supabase_env a_day offline).1 = Ok r).
Proof.
  destruct (C2_remote_failure_falls_back Json.parse Json.stringify supabase_env
              offline (ServiceError "Failed to fetch") a_day wake_partial
              eq_refl eq_refl eq_refl) as (H1 & H2 & H3 & H4 & H5).
  repeat split; try apply H1; try apply H2; try apply H3; try exact H4;
    apply H5; exists ∅; reflexivity.
Defined.

(* ===================================================================== *)
(** * Properties of the remote path *)
(* ===================================================================== *)

(** The world once a request has been taken off [network]. *)
Lemma request_healthy {A} (serve : gmap string value → option A * gmap string value) w :
  next_healthy w →
  request serve w
  = (Ok (Response (serve (flowstate_days w)).1 None),
     World (localStorage w) (serve (flowstate_days w)).2 (tail (network w))
       (console w)).
Proof.
  unfold next_healthy, next_failure, request.
  destruct (head (network w)) as [[| |]|]; intros [=];
    by destruct (serve (flowstate_days w)).
Qed.

(** Rebuilding the mapping from the rows of the table gives the table. *)
Lemma entries_of_table (t : gmap string value) :
  foldl (λ entries r, <[row_date r := payload r]> entries) ∅
    ((λ kv, Row kv.1 kv.2) <$> map_to_list t) = t.
Proof. rewrite foldl_fmap. apply JsonFacts.members_of_map. Qed.

Section RemoteFacts.

Variable JSON_parse : string → option value.
Variable JSON_stringify : value → string.
Variable e : env.

Hypothesis remote_on : remote e = true.

Lemma loadAllDays_healthy w :
  next_healthy w →
  loadAllDays JSON_parse e w
  = (Ok (JObj (flowstate_days w)), served (flowstate_days w) w).
Proof.
  intros H. unfold loadAllDays, select_all, try_catch, mbind, M_bind.
  rewrite remote_on, request_healthy by done. simpl.
  by rewrite entries_of_table.
Qed.

Lemma upsertDay_healthy date data w :
  next_healthy w →
  upsertDay JSON_parse JSON_stringify e date data w
  = (Ok (Some data), served (<[date := data]> (flowstate_days w)) w).
Proof.
  intros H. unfold upsertDay, upsert_select, try_catch, mbind, M_bind.
  rewrite remote_on, request_healthy by done. simpl.
  by destruct (truthy data).
Qed.

Lemma readDay_healthy date w :
  next_healthy w →
  readDay JSON_parse e date w
  = (Ok (js_or (flowstate_days w !! date) JNull), served (flowstate_days w) w).
Proof.
  intros H. unfold readDay, select_maybeSingle, try_catch, mbind, M_bind.
  rewrite remote_on, request_healthy by done. simpl.
  by destruct (flowstate_days w !! date).
Qed.

End RemoteFacts.

(* ===================================================================== *)
(** * Properties of the seed *)
(* ===================================================================== *)

Section SeedFacts.

Variable JSON_parse : string → option value.
Variable JSON_stringify : value → string.
Variable e : env.

Lemma seedIfEmpty_eq today w :
  seedIfEmpty JSON_parse JSON_stringify e today w
  = match loadAllDays JSON_parse e w with
    | (Ok all, w1) =>
        match keys_length all with
        | Ok O =>
            let r := upsertDay JSON_parse JSON_stringify e today seed w1 in
            (match r.1 with Ok _ => Ok tt | Throw err => Throw err end, r.2)
        | Ok (S _) => (Ok tt, w1)
        | Throw err => (Throw err, w1)
        end
    | (Throw err, w1) => (Throw err, w1)
    end.
Proof.
  unfold seedIfEmpty, mbind, M_bind, lift.
  destruct (loadAllDays JSON_parse e w) as [[all|err] w1]; [|done].
  destruct (keys_length all) as [[|n]|err]; simpl; try done.
  by destruct (upsertDay _ _ _ _ _ _) as [[?|?] ?].
Qed.

Lemma loadAllDays_local w :
  remote e = false → loadAllDays JSON_parse e w = loadAllDaysLocal JSON_parse w.
Proof. intros H. unfold loadAllDays. by rewrite H. Qed.

Lemma upsertDay_local date data w :
  remote e = false →
  upsertDay JSON_parse JSON_stringify e date data w
  = upsertDayLocal JSON_parse JSON_stringify date data w.
Proof. intros H. unfold upsertDay. by rewrite H. Qed.

(** Loading writes neither to [localStorage] nor to the table. *)
Lemma loadAllDays_reads_only w :
  localStorage (loadAllDays JSON_parse e w).2 = localStorage w
  ∧ flowstate_days (loadAllDays JSON_parse e w).2 = flowstate_days w.
Proof.
  destruct (remote e) eqn:Hr.
  - destruct (next_failure w) as [err|] eqn:Hf.
    + rewrite (loadAllDays_failure _ e Hr w err Hf), loadAllDaysLocal_eq. done.
    + by rewrite (loadAllDays_healthy _ e Hr w Hf).
  - by rewrite loadAllDays_local, loadAllDaysLocal_eq.
Qed.

End SeedFacts.

Lemma merge_empty_object m : merge (JObj ∅) (JObj m) = JObj m.
Proof. unfold merge. simpl. by rewrite (right_id_L ∅ (∪)). Qed.

Lemma merge_empty_seed : merge (JObj ∅) seed = seed.
Proof. apply merge_empty_object. Qed.

Section SeedRoundTrip.

Variable JSON_parse : string → option value.
Variable JSON_stringify : value → string.
Variable e : env.

Hypothesis parse_stringify : ∀ v, JSON_parse (JSON_stringify v) = Some v.
Hypothesis parse_empty : JSON_parse EmptyString = None.

(** After a local upsert that returned, nothing is left for the seed to
    do: the world it leaves is the one it found. *)
Lemma seedIfEmpty_after_upsertDayLocal today date data w r w' :
  remote e = false →
  upsertDayLocal JSON_parse JSON_stringify date data w = (Ok r, w') →
  seedIfEmpty JSON_parse JSON_stringify e today w' = (Ok tt, w').
Proof.
  intros Hl. rewrite upsertDayLocal_eq.
  destruct (member _ date) as [old|]; [|done].
  destruct (assign _ _ _) as [all'|] eqn:Ha; [|done].
  intros [= _ <-].
  rewrite seedIfEmpty_eq, loadAllDays_local, loadAllDaysLocal_eq by done.
  rewrite stored_saved by done.
  unfold assign in Ha. destruct (stored JSON_parse w) as [| | | |l|m] eqn:Hs;
    simpl in Ha; try done; injection Ha as <-; simpl.
  - destruct l as [|x l]; [|done]. simpl.
    rewrite upsertDay_local, upsertDayLocal_eq by done.
    rewrite stored_saved by done. simpl. f_equal.
    unfold saved. simpl. by rewrite insert_insert_eq.
  - destruct (size (<[date:=_]> m)) eqn:Hsz; [|done].
    apply map_size_empty_iff in Hsz.
    by apply insert_non_empty in Hsz.
Qed.

(** On an empty local store the seed leaves one entry: today's. *)
Lemma seedIfEmpty_local_empty today w :
  remote e = false → stored JSON_parse w = JObj ∅ →
  (seedIfEmpty JSON_parse JSON_stringify e today w).1 = Ok tt
  ∧ stored JSON_parse (seedIfEmpty JSON_parse JSON_stringify e today w).2
    = JObj {[today := seed]}.
Proof.
  intros Hl Hs.
  rewrite seedIfEmpty_eq, loadAllDays_local, loadAllDaysLocal_eq, Hs by done.
  cbn [keys_length]. rewrite map_size_empty. cbv zeta.
  rewrite upsertDay_local by done.
  rewrite (upsertDayLocal_object _ _ _ _ _ ∅ Hs). cbn [fst snd].
  split; [done|].
  rewrite stored_saved by done. cbn [json].
  rewrite lookup_empty, insert_empty. cbn [js_or].
  by rewrite merge_empty_seed.
Qed.

End SeedRoundTrip.

(** C8: [seedIfEmpty] upserts the seed for the current date when
    [loadAllDays] returns a mapping with no key, and does nothing when it
    returns one with a key.  On the local backend an empty store ends with
    the one seeded entry, and after any local upsert that returned the
    seed changes nothing; on the remote backend with every request served,
    an empty table ends with the one seeded row, and after any upsert the
    seed leaves table and [localStorage] as they are. *)
Theorem C8_seed_only_when_empty
    (JSON_parse : string → option value) (JSON_stringify : value → string)
    (parse_stringify : ∀ v, JSON_parse (JSON_stringify v) = Some v)
    (parse_empty : JSON_parse EmptyString = None)
    (e : env) (today : string) (w : world) :
  is_date today = true →
  (∀ all w1, loadAllDays JSON_parse e w = (Ok all, w1) →
     (keys_length all = Ok 0%nat →
        seedIfEmpty JSON_parse JSON_stringify e today w
        = (match (upsertDay JSON_parse JSON_stringify e today seed w1).1 with
           | Ok _ => Ok tt
           | Throw err => Throw err
           end,
           (upsertDay JSON_parse JSON_stringify e today seed w1).2))
     ∧ (∀ n, keys_length all = Ok (S n) →
        seedIfEmpty JSON_parse JSON_stringify e today w = (Ok tt, w1)
        ∧ localStorage w1 = localStorage w
        ∧ flowstate_days w1 = flowstate_days w))
  ∧ (remote e = false →
       (stored JSON_parse w = JObj ∅ →
          (seedIfEmpty JSON_parse JSON_stringify e today w).1 = Ok tt
          ∧ stored JSON_parse (seedIfEmpty JSON_parse JSON_stringify e today w).2
            = JObj {[today := seed]})
       ∧ (∀ d p r w', is_date d = true →
          upsertDayLocal JSON_parse JSON_stringify d p w = (Ok r, w') →
          seedIfEmpty JSON_parse JSON_stringify e today w' = (Ok tt, w')))
  ∧ (remote e = true → network w = [] →
       (flowstate_days w = ∅ →
          (seedIfEmpty JSON_parse JSON_stringify e today w).1 = Ok tt
          ∧ flowstate_days (seedIfEmpty JSON_parse JSON_stringify e today w).2
            = {[today := seed]})
       ∧ (∀ d p, is_date d = true →
          let w' := (upsertDay JSON_parse JSON_stringify e d p w).2 in
          (seedIfEmpty JSON_parse JSON_stringify e today w').1 = Ok tt
          ∧ flowstate_days (seedIfEmpty JSON_parse JSON_stringify e today w').2
            = flowstate_days w'
          ∧ localStorage (seedIfEmpty JSON_parse JSON_stringify e today w').2
            = localStorage w')).
Proof.
  intros _. split; [|split].
  - intros all w1 Hload. rewrite seedIfEmpty_eq, Hload. split.
    + by intros ->.
    + intros n ->. split; [done|].
      pose proof (loadAllDays_reads_only JSON_parse e w) as H.
      by rewrite Hload in H.
  - intros Hl. split.
    + by apply seedIfEmpty_local_empty.
    + intros d p r w' _. by apply seedIfEmpty_after_upsertDayLocal.
  - intros Hr Hnet.
    assert (∀ t, next_healthy (served t w)) as Hserved.
    { intros t. unfold next_healthy, next_failure, served. simpl. by rewrite Hnet. }
    assert (next_healthy w) as Hw.
    { unfold next_healthy, next_failure. by rewrite Hnet. }
    split.
    + intros Ht. rewrite seedIfEmpty_eq, (loadAllDays_healthy _ e Hr w Hw), Ht.
      cbn [keys_length]. rewrite map_size_empty. cbv zeta.
      rewrite (upsertDay_healthy _ _ e Hr) by apply Hserved.
      cbn. by rewrite insert_empty.
    + intros d p _ w'. subst w'.
      rewrite (upsertDay_healthy _ _ e Hr d p w Hw). cbn [snd].
      set (w' := served _ w).
      assert (next_healthy w') as Hw' by apply Hserved.
      rewrite seedIfEmpty_eq, (loadAllDays_healthy _ e Hr w' Hw').
      cbn [keys_length].
      destruct (size (flowstate_days w')) eqn:Hsz; [|done].
      apply map_size_empty_iff in Hsz. subst w'. simpl in Hsz.
      by apply insert_non_empty in Hsz.
Qed.

Lemma C8_seed_only_when_empty_witness :
  let w1 := (seedIfEmpty Json.parse Json.stringify local_env a_day fresh).2 in
  (seedIfEmpty Json.parse Json.stringify local_env a_day fresh).1 = Ok tt
  ∧ stored Json.parse w1 = JObj {[a_day := seed]}
  ∧ seedIfEmpty Json.parse Json.stringify local_env next_day
      (upsertDayLocal Json.parse Json.stringify a_day wake_partial fresh).2
    = (Ok tt, (upsertDayLocal Json.parse Json.stringify a_day wake_partial fresh).2).
Proof.
  destruct (C8_seed_only_when_empty Json.parse Json.stringify
              JsonFacts.reference_parse_stringify JsonFacts.reference_parse_empty
              local_env a_day fresh eq_refl) as (_ & [Hseed _] & _);
    [reflexivity|].
  destruct (C8_seed_only_when_empty Json.parse Json.stringify
              JsonFacts.reference_parse_stringify JsonFacts.reference_parse_empty
              local_env next_day fresh eq_refl) as (_ & [_ Hagain] & _);
    [reflexivity|].
  split; [apply Hseed; reflexivity|]. split; [apply Hseed; reflexivity|].
  apply (Hagain a_day wake_partial
           (Some (merge (JObj ∅) wake_partial))); [reflexivity|].
  rewrite (upsertDayLocal_object Json.parse Json.stringify a_day wake_partial
             fresh ∅ eq_refl).
  reflexivity.
Defined.

(* ===================================================================== *)
(** * The merge of two upserts *)
(* ===================================================================== *)

(** On the local backend a second upsert merges onto the first: the
    fields of the second partial win, the other fields of the first and of
    the record that was there stay, and the merged record is what is
    stored. *)
Lemma upsertDayLocal_twice
    (JSON_parse : string → option value) (JSON_stringify : value → string)
    (parse_stringify : ∀ v, JSON_parse (JSON_stringify v) = Some v)
    (parse_empty : JSON_parse EmptyString = None)
    (w : world) (m : gmap string value) (d : string) (p1 p2 : value) :
  stored JSON_parse w = JObj m →
  let w1 := (upsertDayLocal JSON_parse JSON_stringify d p1 w).2 in
  let r2 := upsertDayLocal JSON_parse JSON_stringify d p2 w1 in
  let merged :=
    JObj (spread p2 ∪ (spread p1 ∪ spread (js_or (m !! d) (JObj ∅)))) in
  r2.1 = Ok (Some merged)
  ∧ (entry JSON_parse d r2.2).1 = Ok (Some merged)
  ∧ (m !! d = None → merged = merge p1 p2).
Proof.
  intros Hs w1 r2 merged. subst w1 r2.
  rewrite (upsertDayLocal_object _ _ _ _ _ m Hs). cbn [snd].
  set (w1 := saved _ _ w).
  assert (stored JSON_parse w1
          = JObj (<[d := merge (js_or (m !! d) (JObj ∅)) p1]> m)) as Hs1.
  { subst w1. by rewrite stored_saved. }
  rewrite (upsertDayLocal_object _ _ _ _ _ _ Hs1). cbn [fst snd].
  rewrite lookup_insert_eq. split; [done|]. split.
  - rewrite entry_eq, stored_saved by done. unfold member. simpl.
    by rewrite lookup_insert_eq.
  - intros Hd. subst merged. rewrite Hd. unfold merge. simpl.
    by rewrite (right_id_L ∅ (∪)).
Qed.

(** On the remote backend, with the requests served, a second upsert
    replaces the first: the answer and the stored payload are the second
    partial record, whatever the first was. *)
Lemma upsertDay_remote_twice
    (JSON_parse : string → option value) (JSON_stringify : value → string)
    (e : env) (w : world) (d : string) (p1 p2 : value) :
  remote e = true → network w = [] →
  let w1 := (upsertDay JSON_parse JSON_stringify e d p1 w).2 in
  let r2 := upsertDay JSON_parse JSON_stringify e d p2 w1 in
  r2.1 = Ok (Some p2) ∧ flowstate_days r2.2 !! d = Some p2.
Proof.
  intros Hr Hnet w1 r2. subst w1 r2.
  assert (∀ t, next_healthy (served t w)) as Hserved.
  { intros t. unfold next_healthy, next_failure, served. simpl. by rewrite Hnet. }
  assert (next_healthy w) as Hw.
  { unfold next_healthy, next_failure. by rewrite Hnet. }
  rewrite (upsertDay_healthy _ _ e Hr d p1 w Hw). cbn [snd].
  rewrite (upsertDay_healthy _ _ e Hr d p2 _ (Hserved _)). cbn.
  split; [done|]. by rewrite lookup_insert_eq.
Qed.

(** C1 fails on the remote path: the request carries the partial record
    alone and the row's payload is replaced by it.  After [wake_partial]
    and then [notes_partial] for the same date, the answer and the stored
    payload are [notes_partial]; the wake time is gone.  The local path,
    on the same input, answers with and stores the merge. *)
Theorem C1_remote_upsert_replaces
    (JSON_parse : string → option value) (JSON_stringify : value → string) :
  let w1 := (upsertDay JSON_parse JSON_stringify supabase_env a_day
               wake_partial fresh).2 in
  let r2 := upsertDay JSON_parse JSON_stringify supabase_env a_day
              notes_partial w1 in
  let l1 := (upsertDayLocal Json.parse Json.stringify a_day wake_partial fresh).2 in
  let l2 := upsertDayLocal Json.parse Json.stringify a_day notes_partial l1 in
  r2.1 = Ok (Some notes_partial)
  ∧ flowstate_days r2.2 !! a_day = Some notes_partial
  ∧ field notes_partial "wakeTime" = None
  ∧ field (merge wake_partial notes_partial) "wakeTime" = Some (JStr "07:00")
  ∧ l2.1 = Ok (Some (merge wake_partial notes_partial))
  ∧ (readDayLocal Json.parse a_day l2.2).1
    = Ok (merge wake_partial notes_partial).
Proof. repeat split; vm_compute; reflexivity. Qed.

(** C4 fails: the wake time the extractor finds is stored as written.
    "I wake at 7 am", sent on a day without a record, leaves the record
    with [wakeTime] "7 am", which is not an HH:MM time. *)
Theorem C4_wake_literal_stored_as_written :
  let st := Dashboard a_day (JObj ∅) (JObj ∅) in
  let run := onProcess Json.parse Json.stringify local_env st
               (extract "I wake at 7 am") fresh in
  (∃ st', run.1 = Ok st')
  ∧ (∃ rec, (readDayLocal Json.parse a_day run.2).1 = Ok rec
            ∧ field rec "wakeTime" = Some (JStr "7 am"))
  ∧ is_HHMM "7 am" = false
  ∧ is_HHMM "07:00" = true.
Proof.
  split; [eexists; vm_compute; reflexivity|].
  split; [eexists; split; vm_compute; reflexivity|].
  split; reflexivity.
Qed.

(* ===================================================================== *)
(** * Further properties of the store *)
(* ===================================================================== *)

(** X1: on a local store that holds a mapping, [readDayLocal] right after
    [upsertDayLocal] at the same date answers with the record the upsert
    returned; that record has every field of the partial record, with its
    value, and every other field as the record stored before had it. *)
Theorem X1_local_read_after_write
    (JSON_parse : string → option value) (JSON_stringify : value → string)
    (parse_stringify : ∀ v, JSON_parse (JSON_stringify v) = Some v)
    (parse_empty : JSON_parse EmptyString = None)
    (w : world) (m : gmap string value) (d : string) (p : value) :
  is_date d = true → stored JSON_parse w = JObj m →
  let r := upsertDayLocal JSON_parse JSON_stringify d p w in
  ∃ rec,
    r.1 = Ok (Some (JObj rec))
    ∧ (readDayLocal JSON_parse d r.2).1 = Ok (JObj rec)
    ∧ (∀ k v, spread p !! k = Some v → rec !! k = Some v)
    ∧ (∀ k, spread p !! k = None →
         rec !! k = spread (js_or (m !! d) (JObj ∅)) !! k).
Proof.
  intros _ Hs r. subst r.
  rewrite (upsertDayLocal_object _ _ _ _ _ m Hs). cbn [fst snd].
  exists (spread p ∪ spread (js_or (m !! d) (JObj ∅))).
  split; [done|]. split.
  - rewrite readDayLocal_eq, stored_saved by done. unfold member. simpl.
    by rewrite lookup_insert_eq.
  - split.
    + intros k v Hk. by apply lookup_union_Some_l.
    + intros k Hk. by apply lookup_union_r.
Qed.

Lemma X1_local_read_after_write_witness :
  let r := upsertDayLocal Json.parse Json.stringify a_day notes_partial
             (upsertDayLocal Json.parse Json.stringify a_day wake_partial
                fresh).2 in
  ∃ rec,
    r.1 = Ok (Some (JObj rec))
    ∧ (readDayLocal Json.parse a_day r.2).1 = Ok (JObj rec)
    ∧ (∀ k v, spread notes_partial !! k = Some v → rec !! k = Some v)
    ∧ (∀ k, spread notes_partial !! k = None →
         rec !! k
         = spread (js_or (({[a_day := merge (JObj ∅) wake_partial]}
                            : gmap string value) !! a_day) (JObj ∅)) !! k).
Proof.
  apply (X1_local_read_after_write Json.parse Json.stringify
           JsonFacts.reference_parse_stringify JsonFacts.reference_parse_empty
           (upsertDayLocal Json.parse Json.stringify a_day wake_partial fresh).2
           {[a_day := merge (JObj ∅) wake_partial]} a_day notes_partial);
    [reflexivity|].
  vm_compute. reflexivity.
Defined.

(** X2: a local upsert is idempotent: on a store that holds a mapping, the
    same partial record at the same date a second time returns the same
    record and leaves the world as the first left it. *)
Theorem X2_local_upsert_idempotent
    (JSON_parse : string → option value) (JSON_stringify : value → string)
    (parse_stringify : ∀ v, JSON_parse (JSON_stringify v) = Some v)
    (parse_empty : JSON_parse EmptyString = None)
    (w : world) (m : gmap string value) (d : string) (p : value) :
  is_date d = true → stored JSON_parse w = JObj m →
  let r1 := upsertDayLocal JSON_parse JSON_stringify d p w in
  upsertDayLocal JSON_parse JSON_stringify d p r1.2 = r1.
Proof.
  intros _ Hs r1. subst r1.
  rewrite (upsertDayLocal_object _ _ _ _ _ m Hs). cbn [snd].
  set (x := merge (js_or (m !! d) (JObj ∅)) p).
  set (w1 := saved _ _ w).
  assert (stored JSON_parse w1 = JObj (<[d := x]> m)) as Hs1.
  { subst w1. by rewrite stored_saved. }
  rewrite (upsertDayLocal_object _ _ _ _ _ _ Hs1).
  rewrite lookup_insert_eq.
  assert (merge (js_or (Some x) (JObj ∅)) p = x) as ->.
  { subst x. unfold merge. simpl.
    by rewrite (assoc_L (∪)), (idemp_L (∪)). }
  f_equal. rewrite insert_insert_eq. subst w1. unfold saved. simpl.
  by rewrite insert_insert_eq.
Qed.

Lemma X2_local_upsert_idempotent_witness :
  let r1 := upsertDayLocal Json.parse Json.stringify a_day wake_partial fresh in
  upsertDayLocal Json.parse Json.stringify a_day wake_partial r1.2 = r1.
Proof.
  apply (X2_local_upsert_idempotent Json.parse Json.stringify
           JsonFacts.reference_parse_stringify JsonFacts.reference_parse_empty
           fresh ∅ a_day wake_partial); reflexivity.
Defined.

(** X3: without a URL or a key, or with a backend setting other than
    "supabase", every operation is the local one, whatever the rest of the
    configuration; an upsert then changes nothing but the store's own item
    of [localStorage]. *)
Theorem X3_local_backend_selected
    (JSON_parse : string → option value) (JSON_stringify : value → string)
    (e : env) (w : world) (d : string) (p : value) :
  SUPABASE_URL e = EmptyString ∨ SUPABASE_KEY e = EmptyString
  ∨ BACKEND e ≠ "supabase" →
  loadAllDays JSON_parse e w = loadAllDaysLocal JSON_parse w
  ∧ readDay JSON_parse e d w = readDayLocal JSON_parse d w
  ∧ upsertDay JSON_parse JSON_stringify e d p w
    = upsertDayLocal JSON_parse JSON_stringify d p w
  ∧ (loadAllDays JSON_parse e w).2 = w
  ∧ (readDay JSON_parse e d w).2 = w
  ∧ let w' := (upsertDay JSON_parse JSON_stringify e d p w).2 in
    flowstate_days w' = flowstate_days w
    ∧ network w' = network w
    ∧ console w' = console w
    ∧ ∀ k, k ≠ STORAGE_KEY → localStorage w' !! k = localStorage w !! k.
Proof.
  intros H.
  assert (remote e = false) as Hr.
  { unfold remote, supabase.
    destruct H as [-> | [-> | H]]; rewrite ?andb_false_r; try done.
    by apply String.eqb_neq in H as ->. }
  rewrite (loadAllDays_local _ _ _ Hr), (upsertDay_local _ _ _ _ _ _ Hr).
  unfold readDay. rewrite Hr.
  rewrite loadAllDaysLocal_eq, readDayLocal_eq, upsertDayLocal_eq.
  repeat split; try done;
    destruct (member _ _) as [old|]; try done;
    destruct (assign _ _ _) as [all'|]; try done.
  intros k Hk. simpl. by rewrite lookup_insert_ne.
Qed.

Lemma X3_local_backend_selected_witness :
  let e := Env (Some "supabase") None (Some "anon-key") in
  loadAllDays Json.parse e fresh = loadAllDaysLocal Json.parse fresh
  ∧ readDay Json.parse e a_day fresh = readDayLocal Json.parse a_day fresh
  ∧ upsertDay Json.parse Json.stringify e a_day wake_partial fresh
    = upsertDayLocal Json.parse Json.stringify a_day wake_partial fresh.
Proof.
  destruct (X3_local_backend_selected Json.parse Json.stringify
              (Env (Some "supabase") None (Some "anon-key")) fresh a_day
              wake_partial (or_introl eq_refl)) as (H1 & H2 & H3 & _).
  repeat split; assumption.
Defined.

(** X4: on the remote backend with the requests served, [readDay] after
    [upsertDay] at the same date answers with the record that was sent
    (null when that is falsy), [loadAllDays] answers with the table, where
    the date now has that record and every other date what it had, and
    [localStorage] has not been written. *)
Theorem X4_remote_read_after_write
    (JSON_parse : string → option value) (JSON_stringify : value → string)
    (e : env) (w : world) (d : string) (p : value) :
  remote e = true → network w = [] → is_date d = true →
  let w' := (upsertDay JSON_parse JSON_stringify e d p w).2 in
  (readDay JSON_parse e d w').1 = Ok (js_or (Some p) JNull)
  ∧ (loadAllDays JSON_parse e w').1 = Ok (JObj (<[d := p]> (flowstate_days w)))
  ∧ localStorage w' = localStorage w.
Proof.
  intros Hr Hnet _ w'. subst w'.
  assert (∀ t, next_healthy (served t w)) as Hserved.
  { intros t. unfold next_healthy, next_failure, served. simpl. by rewrite Hnet. }
  assert (next_healthy w) as Hw.
  { unfold next_healthy, next_failure. by rewrite Hnet. }
  rewrite (upsertDay_healthy _ _ e Hr d p w Hw). cbn [snd].
  rewrite (readDay_healthy _ e Hr d _ (Hserved _)).
  rewrite (loadAllDays_healthy _ e Hr _ (Hserved _)). simpl.
  by rewrite lookup_insert_eq.
Qed.

Lemma X4_remote_read_after_write_witness :
  let w' := (upsertDay Json.parse Json.stringify supabase_env a_day
               wake_partial fresh).2 in
  (readDay Json.parse supabase_env a_day w').1 = Ok (js_or (Some wake_partial) JNull)
  ∧ (loadAllDays Json.parse supabase_env w').1
    = Ok (JObj (<[a_day := wake_partial]> (flowstate_days fresh)))
  ∧ localStorage w' = localStorage fresh.
Proof.
  apply (X4_remote_read_after_write Json.parse Json.stringify supabase_env
           fresh a_day wake_partial); reflexivity.
Defined.

(** X5: a failed request is reported once: each of [loadAllDays],
    [upsertDay], [readDay] adds its own warning, with the error the request
    failed with, to the console, uses up that one request, and leaves the
    remote table as it was. *)
Theorem X5_fallback_warns_once
    (JSON_parse : string → option value) (JSON_stringify : value → string)
    (e : env) (w : world) (err : exn) (d : string) (p : value) :
  remote e = true → next_failure w = Some err →
  let reported (msg : string) (w' : world) :=
    console w' = console w ++ [(msg, err)]
    ∧ network w' = tail (network w)
    ∧ flowstate_days w' = flowstate_days w in
  reported "Supabase loadAllDays failed, using local fallback"
    (loadAllDays JSON_parse e w).2
  ∧ reported "Supabase upsert failed, using local fallback"
      (upsertDay JSON_parse JSON_stringify e d p w).2
  ∧ reported "Supabase read failed, using local fallback"
      (readDay JSON_parse e d w).2.
Proof.
  intros Hr Hf reported. subst reported. cbv beta.
  rewrite (loadAllDays_failure _ e Hr w err Hf),
    (upsertDay_failure _ _ e Hr d p w err Hf),
    (readDay_failure _ e Hr d w err Hf).
  rewrite loadAllDaysLocal_eq, readDayLocal_eq, upsertDayLocal_eq.
  repeat split; try done;
    destruct (member _ _) as [old|]; try done;
    by destruct (assign _ _ _) as [all'|].
Qed.

Lemma X5_fallback_warns_once_witness :
  console (readDay Json.parse supabase_env a_day offline).2
  = console offline
    ++ [("Supabase read failed, using local fallback",
         ServiceError "Failed to fetch")]
  ∧ network (readDay Json.parse supabase_env a_day offline).2
    = tail (network offline)
  ∧ flowstate_days (readDay Json.parse supabase_env a_day offline).2
    = flowstate_days offline.
Proof.
  destruct (X5_fallback_warns_once Json.parse Json.stringify supabase_env
              offline (ServiceError "Failed to fetch") a_day wake_partial
              eq_refl eq_refl) as (_ & _ & H).
  exact H.
Defined.

(** X6: what [saveAllDaysLocal] writes, [loadAllDaysLocal] reads back: any
    value saved is the value loaded next, whatever [localStorage] held. *)
Theorem X6_save_then_load
    (JSON_parse : string → option value) (JSON_stringify : value → string)
    (parse_stringify : ∀ v, JSON_parse (JSON_stringify v) = Some v)
    (parse_empty : JSON_parse EmptyString = None)
    (w : world) (v : value) :
  let w' := (saveAllDaysLocal JSON_stringify (parsed v) w).2 in
  loadAllDaysLocal JSON_parse w' = (Ok v, w').
Proof.
  intros w'. rewrite loadAllDaysLocal_eq. f_equal. f_equal.
  subst w'. by apply (stored_saved _ _ parse_stringify parse_empty (parsed v)).
Qed.

Lemma X6_save_then_load_witness :
  let w' := (saveAllDaysLocal Json.stringify (parsed seed) garbled).2 in
  loadAllDaysLocal Json.parse w' = (Ok seed, w').
Proof.
  apply (X6_save_then_load Json.parse Json.stringify
           JsonFacts.reference_parse_stringify JsonFacts.reference_parse_empty).
Defined.

(* ===================================================================== *)
(** * Properties of the dashboard *)
(* ===================================================================== *)

Section DashboardFacts.

Variable JSON_parse : string → option value.
Variable JSON_stringify : value → string.
Variable e : env.

Lemma saveDay_eq st partial w :
  saveDay JSON_parse JSON_stringify e st partial w
  = match upsertDay JSON_parse JSON_stringify e (date st) partial w with
    | (Ok updated, w1) =>
        match loadAllDays JSON_parse e w1 with
        | (Ok reloaded, w2) =>
            (Ok (Dashboard (date st) (js_or updated (JObj ∅)) reloaded), w2)
        | (Throw err, w2) => (Throw err, w2)
        end
    | (Throw err, w1) => (Throw err, w1)
    end.
Proof.
  unfold saveDay, mbind, M_bind.
  destruct (upsertDay _ _ _ _ _ _) as [[updated|err] w1]; [|done].
  by destruct (loadAllDays _ _ _) as [[reloaded|err] w2].
Qed.

Hypothesis parse_stringify : ∀ v, JSON_parse (JSON_stringify v) = Some v.
Hypothesis parse_empty : JSON_parse EmptyString = None.

(** [saveDay] on the local backend, on a store that holds a mapping. *)
Lemma saveDay_local st partial w m :
  remote e = false → stored JSON_parse w = JObj m →
  let merged := merge (js_or (m !! date st) (JObj ∅)) partial in
  let all' := JObj (<[date st := merged]> m) in
  saveDay JSON_parse JSON_stringify e st partial w
  = (Ok (Dashboard (date st) merged all'),
     saved JSON_stringify (Object all' ∅) w).
Proof.
  intros Hl Hs merged all'. rewrite saveDay_eq, upsertDay_local by done.
  rewrite (upsertDayLocal_object _ _ _ _ _ m Hs).
  rewrite loadAllDays_local, loadAllDaysLocal_eq by done.
  by rewrite stored_saved.
Qed.

End DashboardFacts.

(** X7: after [saveDay] the record on display is the one the store holds
    for the date on display, and the date has not changed.  On the local
    backend this holds for every partial record, every other date keeps
    its entry, and choosing the date again shows the same state; on the
    remote backend with the requests served it holds for a truthy partial
    record, which is then the record shown. *)
Theorem X7_saveDay_shows_the_stored_record
    (JSON_parse : string → option value) (JSON_stringify : value → string)
    (parse_stringify : ∀ v, JSON_parse (JSON_stringify v) = Some v)
    (parse_empty : JSON_parse EmptyString = None)
    (e : env) (w : world) (st : dashboard) (partial : value) :
  is_date (date st) = true →
  (∀ m, remote e = false → stored JSON_parse w = JObj m →
     ∃ st', (saveDay JSON_parse JSON_stringify e st partial w).1 = Ok st'
       ∧ date st' = date st
       ∧ field (all st') (date st) = Some (data st')
       ∧ (∀ d, d ≠ date st → field (all st') d = m !! d)
       ∧ (showDate JSON_parse e st' (date st)
            (saveDay JSON_parse JSON_stringify e st partial w).2).1 = Ok st')
  ∧ (remote e = true → network w = [] → truthy partial = true →
     ∃ st', (saveDay JSON_parse JSON_stringify e st partial w).1 = Ok st'
       ∧ date st' = date st
       ∧ data st' = partial
       ∧ field (all st') (date st) = Some (data st')
       ∧ ∀ d, d ≠ date st → field (all st') d = flowstate_days w !! d).
Proof.
  intros _. split.
  - intros m Hl Hs.
    rewrite (saveDay_local _ _ e parse_stringify parse_empty st partial w m Hl Hs).
    eexists. split; [done|]. cbn [fst snd date data all field].
    split; [done|]. split; [by rewrite lookup_insert_eq|]. split.
    + intros d Hd. by rewrite lookup_insert_ne.
    + unfold showDate, mbind, M_bind, readDay.
      rewrite Hl, readDayLocal_eq, stored_saved by done.
      cbn [json parsed member]. by rewrite lookup_insert_eq.
  - intros Hr Hnet Ht.
    assert (next_healthy w) as Hw.
    { unfold next_healthy, next_failure. by rewrite Hnet. }
    rewrite saveDay_eq, (upsertDay_healthy _ _ e Hr _ _ w Hw).
    rewrite (loadAllDays_healthy _ e Hr).
    2:{ unfold next_healthy, next_failure, served. simpl. by rewrite Hnet. }
    eexists. split; [done|]. simpl. rewrite Ht.
    repeat split; [by rewrite lookup_insert_eq|].
    intros d Hd. by rewrite lookup_insert_ne.
Qed.

Lemma X7_saveDay_shows_the_stored_record_witness :
  (∃ st', (saveDay Json.parse Json.stringify local_env
             (Dashboard a_day (JObj ∅) (JObj ∅)) wake_partial fresh).1 = Ok st'
     ∧ date st' = a_day
     ∧ field (all st') a_day = Some (data st')
     ∧ (∀ d, d ≠ a_day → field (all st') d = (∅ : gmap string value) !! d)
     ∧ (showDate Json.parse local_env st' a_day
          (saveDay Json.parse Json.stringify local_env
             (Dashboard a_day (JObj ∅) (JObj ∅)) wake_partial fresh).2).1
       = Ok st')
  ∧ (∃ st', (saveDay Json.parse Json.stringify supabase_env
               (Dashboard a_day (JObj ∅) (JObj ∅)) wake_partial fresh).1 = Ok st'
     ∧ date st' = a_day
     ∧ data st' = wake_partial
     ∧ field (all st') a_day = Some (data st')
     ∧ ∀ d, d ≠ a_day → field (all st') d = flowstate_days fresh !! d).
Proof.
  destruct (X7_saveDay_shows_the_stored_record Json.parse Json.stringify
              JsonFacts.reference_parse_stringify
              JsonFacts.reference_parse_empty
              local_env fresh (Dashboard a_day (JObj ∅) (JObj ∅)) wake_partial
              eq_refl) as [Hlocal _].
  destruct (X7_saveDay_shows_the_stored_record Json.parse Json.stringify
              JsonFacts.reference_parse_stringify
              JsonFacts.reference_parse_empty
              supabase_env fresh (Dashboard a_day (JObj ∅) (JObj ∅)) wake_partial
              eq_refl) as [_ Hremote].
  split.
  - apply (Hlocal ∅); reflexivity.
  - apply Hremote; reflexivity.
Defined.

(** X8: the first run on the local backend.  With a store that holds no
    day, [seedIfEmpty] followed by the dashboard's first effect shows
    today's date, the seed record as the data of the day, and a day list
    with today's entry alone. *)
Theorem X8_first_run_shows_the_seed
    (JSON_parse : string → option value) (JSON_stringify : value → string)
    (parse_stringify : ∀ v, JSON_parse (JSON_stringify v) = Some v)
    (parse_empty : JSON_parse EmptyString = None)
    (e : env) (w : world) (today : string) :
  remote e = false → is_date today = true → stored JSON_parse w = JObj ∅ →
  let w1 := (seedIfEmpty JSON_parse JSON_stringify e today w).2 in
  (mount JSON_parse e today today w1).1
  = Ok (Dashboard today seed (JObj {[today := seed]}))
  ∧ dates (JObj {[today := seed]}) = Ok [today].
Proof.
  intros Hl Hd Hs w1.
  destruct (seedIfEmpty_local_empty _ _ e parse_stringify parse_empty today w
              Hl Hs) as [_ Hs1].
  fold w1 in Hs1. split.
  - unfold mount, mbind, M_bind, readDay.
    rewrite loadAllDays_local, loadAllDaysLocal_eq, Hl, readDayLocal_eq, Hs1
      by done.
    simpl. rewrite lookup_singleton_eq. simpl.
    destruct today; [done|]. done.
  - unfold dates, object_keys. rewrite map_to_list_singleton. done.
Qed.

Lemma X8_first_run_shows_the_seed_witness :
  let w1 := (seedIfEmpty Json.parse Json.stringify local_env a_day fresh).2 in
  (mount Json.parse local_env a_day a_day w1).1
  = Ok (Dashboard a_day seed (JObj {[a_day := seed]}))
  ∧ dates (JObj {[a_day := seed]}) = Ok [a_day].
Proof.
  apply (X8_first_run_shows_the_seed Json.parse Json.stringify
           JsonFacts.reference_parse_stringify JsonFacts.reference_parse_empty
           local_env fresh a_day); reflexivity.
Defined.

(** X9: the [Today] button on the local backend, on a store that holds a
    mapping.  When today has a truthy record, nothing is written.  When it
    has none, the empty record is merged into the entry of the date on
    display: if that date is today, today's entry becomes the empty record
    and a second click changes nothing; if it is another date, today's
    entry stays as it was. *)
Theorem X9_today_click
    (JSON_parse : string → option value) (JSON_stringify : value → string)
    (parse_stringify : ∀ v, JSON_parse (JSON_stringify v) = Some v)
    (parse_empty : JSON_parse EmptyString = None)
    (e : env) (w : world) (m : gmap string value) (st : dashboard) (d : string) :
  remote e = false → is_date d = true → is_date (date st) = true →
  stored JSON_parse w = JObj m →
  let r := today_click JSON_parse JSON_stringify e st d w in
  r.1 = Ok tt
  ∧ (truthy (js_or (m !! d) JNull) = true → r.2 = w)
  ∧ (truthy (js_or (m !! d) JNull) = false →
       stored JSON_parse r.2
       = JObj (<[date st := merge (js_or (m !! date st) (JObj ∅)) (JObj ∅)]> m)
       ∧ (date st = d →
            field (stored JSON_parse r.2) d = Some (JObj ∅)
            ∧ today_click JSON_parse JSON_stringify e st d r.2 = (Ok tt, r.2))
       ∧ (date st ≠ d → field (stored JSON_parse r.2) d = m !! d)).
Proof.
  intros Hl _ _ Hs r.
  assert (∀ w' m', stored JSON_parse w' = JObj m' →
            today_click JSON_parse JSON_stringify e st d w'
            = if truthy (js_or (m' !! d) JNull) then (Ok tt, w')
              else (Ok tt,
                    saved JSON_stringify
                      (Object (JObj (<[date st :=
                         merge (js_or (m' !! date st) (JObj ∅)) (JObj ∅)]> m')) ∅)
                      w')) as Hclick.
  { intros w' m' Hs'. unfold today_click, mbind, M_bind, readDay.
    rewrite Hl, readDayLocal_eq, Hs'. cbn [parsed member json].
    destruct (truthy (js_or (m' !! d) JNull)); [done|].
    by rewrite (saveDay_local _ _ e parse_stringify parse_empty st (JObj ∅) w' m'
                  Hl Hs'). }
  subst r. rewrite (Hclick w m Hs).
  destruct (truthy (js_or (m !! d) JNull)) eqn:Ht.
  - by repeat split.
  - split; [done|]. split; [intros [=]|]. intros _. cbn [snd].
    rewrite stored_saved by done. cbn [json]. split; [done|]. split.
    + intros <-. cbn [field]. rewrite lookup_insert_eq.
      assert (js_or (m !! date st) (JObj ∅) = JObj ∅) as ->.
      { unfold js_or in *. destruct (m !! date st) as [v|]; [|done].
        destruct (truthy v) eqn:Hv; [simpl in Ht; congruence|done]. }
      rewrite merge_empty_object. split; [done|].
      rewrite (Hclick _ (<[date st := JObj ∅]> m))
        by (by rewrite stored_saved).
      by rewrite lookup_insert_eq.
    + intros Hne. cbn [field]. by rewrite lookup_insert_ne.
Qed.

Lemma X9_today_click_witness :
  let st := Dashboard a_day (JObj ∅) (JObj ∅) in
  let r := today_click Json.parse Json.stringify local_env st a_day fresh in
  r.1 = Ok tt
  ∧ field (stored Json.parse r.2) a_day = Some (JObj ∅)
  ∧ today_click Json.parse Json.stringify local_env st a_day r.2 = (Ok tt, r.2).
Proof.
  destruct (X9_today_click Json.parse Json.stringify
              JsonFacts.reference_parse_stringify
              JsonFacts.reference_parse_empty
              local_env fresh ∅ (Dashboard a_day (JObj ∅) (JObj ∅)) a_day
              eq_refl eq_refl eq_refl eq_refl) as (H1 & _ & H3).
  destruct (H3 eq_refl) as (_ & H4 & _).
  destruct (H4 eq_refl) as [H5 H6].
  repeat split; assumption.
Defined.

(** The day list of a mapping holds exactly its keys, each once, in
    strictly descending order of their code units. *)
Lemma dates_descending (m : gmap string value) :
  ∃ l, dates (JObj m) = Ok l
    ∧ (∀ d, d ∈ l ↔ is_Some (m !! d))
    ∧ NoDup l
    ∧ StronglySorted (λ a b, String.le b a ∧ a ≠ b) l.
Proof.
  unfold dates, object_keys. eexists. split; [done|].
  set (keys := (map_to_list m).*1).
  assert (NoDup keys) as Hnd by apply NoDup_fst_map_to_list.
  assert (merge_sort String.le keys ≡ₚ keys) as Hp by apply merge_sort_Permutation.
  split; [|split].
  - intros d. rewrite elem_of_reverse, Hp. subst keys.
    rewrite list_elem_of_fmap. split.
    + intros [[k v] [-> Hkv]]. apply elem_of_map_to_list in Hkv. by exists v.
    + intros [v Hv]. exists (d, v). split; [done|]. by apply elem_of_map_to_list.
  - by rewrite reverse_Permutation, Hp.
  - assert (NoDup (merge_sort String.le keys)) as Hnd' by by rewrite Hp.
    pose proof (StronglySorted_merge_sort String.le keys) as Hss.
    revert Hnd' Hss. generalize (merge_sort String.le keys). clear.
    induction l as [|x l IH]; intros Hnd Hss; [constructor|].
    rewrite reverse_cons. apply NoDup_cons in Hnd as [Hx Hnd].
    apply StronglySorted_inv in Hss as [Hss Hall].
    specialize (IH Hnd Hss). revert IH.
    assert (Forall (λ y, String.le x y ∧ y ≠ x) (reverse l)) as Hl.
    { apply Forall_forall. intros y Hy. rewrite elem_of_reverse in Hy.
      rewrite Forall_forall in Hall. split; [by apply Hall|]. by intros ->. }
    revert Hl. generalize (reverse l). clear. intros l Hl.
    induction 1 as [|y l Hss IH Hy]; simpl.
    + repeat constructor.
    + apply Forall_cons in Hl as [Hxy Hl]. constructor; [by apply IH|].
      apply Forall_app. split; [done|]. by constructor.
Qed.

Lemma is_digit_bounds c :
  is_digit c = true → (48 ≤ N_of_ascii c ≤ 57)%N.
Proof.
  unfold is_digit. intros [H1 H2]%andb_prop.
  apply N.leb_le in H1, H2. lia.
Qed.

Lemma compare_step (x y : N) (rest : comparison) :
  match (x ?= y)%N with Eq => rest | Lt => Lt | Gt => Gt end = Lt →
  (x < y)%N ∨ (x = y ∧ rest = Lt).
Proof. destruct (N.compare_spec x y); intros; try discriminate; auto. Qed.

Lemma digit_split (n : N) : (48 ≤ n ≤ 57)%N → ∃ k, n = (k + 48)%N ∧ (k ≤ 9)%N.
Proof. intros H. exists (n - 48)%N. lia. Qed.

(** On date keys the order of the code units is the order of the days. *)
Lemma date_order d1 d2 :
  is_date d1 = true → is_date d2 = true →
  String.le d1 d2 → d1 ≠ d2 → (date_number d1 < date_number d2)%N.
Proof.
  intros H1 H2 Hle Hne.
  assert ((d1 ?= d2)%string = Lt) as Hlt.
  { unfold String.le, String.leb in Hle.
    destruct (d1 ?= d2)%string eqn:Hc; [|done|done].
    by apply String.compare_eq_iff in Hc. }
  clear Hle Hne. revert H1 H2 Hlt.
  destruct d1 as [|a1 [|a2 [|a3 [|a4 [|a5 [|a6 [|a7 [|a8 [|a9 [|a10 [|? ?]]]]]]]]]]];
    try discriminate.
  destruct d2 as [|b1 [|b2 [|b3 [|b4 [|b5 [|b6 [|b7 [|b8 [|b9 [|b10 [|? ?]]]]]]]]]]];
    try discriminate.
  cbn [is_date]. rewrite !andb_true_iff.
  intros (((((((((A1 & A2) & A3) & A4) & A5) & A6) & A7) & A8) & A9) & A10).
  intros (((((((((B1 & B2) & B3) & B4) & B5) & B6) & B7) & B8) & B9) & B10).
  apply Ascii.eqb_eq in A5, A8, B5, B8. subst a5 a8 b5 b8.
  apply is_digit_bounds in A1, A2, A3, A4, A6, A7, A9, A10,
    B1, B2, B3, B4, B6, B7, B9, B10.
  unfold date_number. cbn [substring number_of]. unfold digit_value.
  cbn [String.compare].
  change (Ascii.compare "-" "-") with Eq. cbv iota.
  unfold Ascii.compare.
  repeat match goal with
  | |- context [N_of_ascii ?a] =>
      generalize dependent (N_of_ascii a); clear a; intro
  end.
  intros.
  repeat match goal with
  | H : (48 ≤ ?n ≤ 57)%N |- _ =>
      apply digit_split in H as (? & -> & ?)
  end.
  rewrite !N.add_sub. revert select (_ = Lt). intros Hlt.
  repeat (apply compare_step in Hlt as [?|[? Hlt]]; [lia|]).
  discriminate.
Qed.

(** X10: the day list of a mapping holds exactly its keys, each once, in
    strictly descending order of their code units, so that it is the same
    list in whatever order the keys are enumerated; when the keys are date
    keys, it runs from the newest day to the oldest. *)
Theorem X10_dates_newest_first (m : gmap string value) :
  ∃ l, dates (JObj m) = Ok l
    ∧ (∀ d, d ∈ l ↔ is_Some (m !! d))
    ∧ NoDup l
    ∧ StronglySorted (λ a b, String.le b a ∧ a ≠ b) l
    ∧ ((∀ d, is_Some (m !! d) → is_date d = true) →
       StronglySorted (λ a b, (date_number b < date_number a)%N) l).
Proof.
  destruct (dates_descending m) as (l & Hl & Hin & Hnd & Hss).
  exists l. do 4 (split; [done|]). intros Hm.
  assert (Forall (λ d, is_date d = true) l) as Hd.
  { apply Forall_forall. intros d Hd. by apply Hm, Hin. }
  clear Hin Hl Hm Hnd. induction Hss as [|a l Hss IH Hall]; [constructor|].
  apply Forall_cons in Hd as [Ha Hd]. constructor; [by apply IH|].
  rewrite Forall_forall in Hall, Hd. apply Forall_forall. intros b Hb.
  destruct (Hall b Hb) as [Hle Hne]. apply date_order; auto.
Qed.

Lemma X10_dates_newest_first_witness :
  ∃ l, dates (JObj (<[next_day := JObj ∅]> {[a_day := JObj ∅]})) = Ok l
    ∧ StronglySorted (λ a b, (date_number b < date_number a)%N) l.
Proof.
  destruct (X10_dates_newest_first (<[next_day := JObj ∅]> {[a_day := JObj ∅]}))
    as (l & Hl & _ & _ & _ & H).
  exists l. split; [exact Hl|]. apply H.
  intros d [v Hv].
  apply lookup_insert_Some in Hv as [[<- _]|[_ Hv]]; [reflexivity|].
  apply lookup_singleton_Some in Hv as [<- _]. reflexivity.
Defined.

(* ===================================================================== *)
(** * Further properties of the extractor *)
(* ===================================================================== *)

Section ExtractShape.

Variable text : string.

Lemma habits_after_workout_step x :
  habits_of (mood_step text (project_step text (learning_step text
    (task_step text x)))) = habits_of x.
Proof.
  unfold mood_step, project_step, learning_step, task_step, with_mood.
  repeat case_match; reflexivity.
Qed.

Lemma scheduledItems_extract : scheduledItems (extract text) = [].
Proof.
  unfold extract, mood_step, project_step, learning_step, task_step,
    workout_step, wake_step, with_mood, initial.
  repeat case_match; reflexivity.
Qed.

Lemma insights_mood_task_step x :
  insights (mood_step text x) = insights x
  ∧ insights (task_step text x) = insights x.
Proof.
  unfold mood_step, task_step, with_mood. repeat case_match; done.
Qed.

End ExtractShape.

Lemma habits_extract text :
  habits_of (extract text)
  = Habits (if wake_keyword text then time_match text else None)
           (if workout_keyword text then Some true else None).
Proof.
  unfold extract. rewrite habits_after_workout_step.
  unfold workout_step, wake_step, initial, wake_keyword, workout_keyword.
  repeat case_match; simplify_eq/=; reflexivity.
Qed.

(** X11: the habits of the result.  The wake time is what the time pattern
    finds in the text when "wake" or "morning" occurs, and is absent
    otherwise; [workoutIntended] is true when "workout", "exercise" or
    "gym" occurs, and is absent otherwise (it is never false).
    [scheduledItems] is always empty. *)
Theorem X11_habits (text : string) :
  habits_of (extract text)
  = Habits (if wake_keyword text then time_match text else None)
           (if workout_keyword text then Some true else None)
  ∧ workoutIntended (habits_of (extract text)) ≠ Some false
  ∧ scheduledItems (extract text) = [].
Proof.
  pose proof (habits_extract text) as H.
  split; [done|]. split; [|apply scheduledItems_extract].
  rewrite H. simpl. by destruct (workout_keyword text).
Qed.

(** X12: the insights of the result are, in this order and each at most
    once: the wake time noted, the workout, the learning activity, the
    project activity; task and mood keywords add none. *)
Theorem X12_insights (text : string) :
  insights (extract text)
  = (if wake_keyword text then
       match time_match text with
       | Some lit => ["Wake time noted: " +:+ lit]
       | None => []
       end
     else [])
    ++ (if workout_keyword text then ["Workout activity detected"] else [])
    ++ (if learning_keyword text
        then ["Learning activity detected - categorized under Resources"]
        else [])
    ++ (if project_keyword text then ["Project-related activity detected"]
        else []).
Proof.
  unfold extract.
  rewrite (proj1 (insights_mood_task_step text _)).
  unfold project_step, learning_step.
  fold (project_keyword text). fold (learning_keyword text).
  assert (∀ x, insights (task_step text x) = insights x) as Ht
    by (intros x; apply insights_mood_task_step).
  unfold workout_step, wake_step, initial.
  fold (workout_keyword text). fold (wake_keyword text).
  destruct (project_keyword text), (learning_keyword text); cbn [insights];
    rewrite Ht;
    destruct (workout_keyword text), (wake_keyword text); cbn [insights];
    try destruct (time_match text); cbn [insights]; reflexivity.
Qed.

(** A literal of the time pattern has at least three characters. *)
Lemma time_literal_length lit :
  time_literal lit → (3 ≤ String.length lit)%nat.
Proof.
  destruct 1 as [h m1 m2 Hh _ _|h ws a m x Hh _ _ _ _];
    unfold hour_digits in Hh; destruct Hh as [Hh _];
    rewrite !length_app_str; simpl; lia.
Qed.

(** X13: the wake time is absent exactly when no wake keyword occurs or
    the text holds no literal of the time pattern; when present it has at
    least three characters, so the dashboard's test of it never fails and
    the handler stores it as [wakeTime], as written. *)
Theorem X13_wake_time_absent_or_stored (text : string) (data : value) :
  (wakeTime (habits_of (extract text)) = None
   ↔ wake_keyword text = false
     ∨ ¬ ∃ pre l post, text = pre +:+ l +:+ post ∧ time_literal l)
  ∧ ∀ lit, wakeTime (habits_of (extract text)) = Some lit →
      (3 ≤ String.length lit)%nat
      ∧ updatedData data (extract text) !! "wakeTime" = Some (JStr lit).
Proof.
  pose proof (habits_extract text) as Hh.
  split.
  - rewrite Hh. cbn [wakeTime]. destruct (wake_keyword text); [|by intuition].
    split.
    + intros Hn. right. intros (pre & l & post & E & Hl).
      destruct (time_match_complete text pre l post E Hl) as [lit Hlit].
      congruence.
    + intros [?|Hn]; [done|]. destruct (time_match text) as [lit|] eqn:Hm; [|done].
      destruct Hn. apply time_match_leftmost in Hm as (pre & [post ->] & Hl & _).
      by exists pre, lit, post.
  - intros lit Hlit.
    assert (time_literal lit) as Hl.
    { rewrite Hh in Hlit. cbn [wakeTime] in Hlit.
      destruct (wake_keyword text); [|done].
      by apply time_match_leftmost in Hlit as (pre & _ & Hl & _). }
    pose proof (time_literal_length lit Hl) as Hlen. split; [done|].
    destruct lit as [|c lit]; [simpl in Hlen; lia|].
    unfold updatedData. rewrite Hlit.
    repeat case_match; rewrite ?lookup_insert_ne by done;
      by rewrite lookup_insert_eq.
Qed.

Lemma X13_wake_time_absent_or_stored_witness :
  (3 ≤ String.length "7 am")%nat
  ∧ updatedData seed (extract "I wake at 7 am") !! "wakeTime"
    = Some (JStr "7 am").
Proof.
  destruct (X13_wake_time_absent_or_stored "I wake at 7 am" seed) as [_ H].
  apply (H "7 am"). reflexivity.
Defined.

Lemma mood_extract text :
  mood (extract text)
  = if negative_keyword text then "low"
    else if positive_keyword text then "high" else "neutral".
Proof.
  unfold negative_keyword, positive_keyword, extract, mood_step.
  repeat case_match; simpl; try reflexivity.
  apply mood_before_mood_step.
Qed.

Lemma paraCategory_extract text :
  paraCategory (extract text)
  = if project_keyword text then Some "Projects"
    else if learning_keyword text then Some "Resources" else None.
Proof.
  unfold learning_keyword, project_keyword, extract.
  rewrite paraCategory_mood_step. unfold project_step, learning_step.
  repeat case_match; simpl; try reflexivity.
  apply paraCategory_before_learning.
Qed.

Lemma tasks_extract text :
  tasks (extract text)
  = if task_keyword text
    then map task_for
           (filter (λ verb, includes (lowerText text) verb = true) taskKeywords)
    else [].
Proof.
  unfold task_keyword, extract. rewrite tasks_after_task_step.
  unfold task_step. case_match; cbn [tasks].
  - rewrite foldl_push_task, tasks_before_task_step. reflexivity.
  - apply tasks_before_task_step.
Qed.

(** An extraction is the record of its six fields. *)
Lemma extractedData_eta x :
  x = ExtractedData (tasks x) (habits_of x) (mood x) (insights x)
        (paraCategory x) (scheduledItems x).
Proof. by destruct x. Qed.

Lemma insights_extract_nil text :
  (wake_keyword text = false ∨ time_match text = None) →
  workout_keyword text = false → learning_keyword text = false →
  project_keyword text = false →
  insights (extract text) = [].
Proof.
  intros Hw Hk Hl Hp. unfold extract.
  rewrite (proj1 (insights_mood_task_step text _)).
  unfold project_step, learning_step.
  fold (project_keyword text). fold (learning_keyword text). rewrite Hp, Hl.
  rewrite (proj2 (insights_mood_task_step text _)).
  unfold workout_step, wake_step, initial.
  fold (workout_keyword text). fold (wake_keyword text). rewrite Hk.
  destruct Hw as [->| ->]; [done|]. by destruct (wake_keyword text).
Qed.

(** X14: the extractor finds nothing, that is, returns the record it
    started from, exactly when no rule applies: no wake keyword with a time
    literal, no workout keyword, no task keyword with a verb, no learning,
    project or mood keyword.  The dashboard's handler then hands the
    record of the day to [saveDay] as it is. *)
Theorem X14_nothing_found (text : string) (data : value) :
  (extract text = initial
   ↔ (wake_keyword text = false ∨ time_match text = None)
     ∧ workout_keyword text = false
     ∧ (task_keyword text = false
        ∨ Forall (λ verb, includes (lowerText text) verb = false) taskKeywords)
     ∧ learning_keyword text = false
     ∧ project_keyword text = false
     ∧ negative_keyword text = false
     ∧ positive_keyword text = false)
  ∧ (extract text = initial → updatedData data (extract text) = spread data).
Proof.
  split; [|by intros ->].
  split.
  - intros H.
    pose proof (habits_extract text) as Hh.
    pose proof (mood_extract text) as Hm.
    pose proof (paraCategory_extract text) as Hp.
    pose proof (tasks_extract text) as Ht.
    rewrite H in Hh, Hm, Hp, Ht. unfold initial in Hh, Hm, Hp, Ht.
    cbn [habits_of mood paraCategory tasks] in Hh, Hm, Hp, Ht.
    injection Hh as Hwake Hwork.
    repeat split.
    + destruct (wake_keyword text); auto.
    + by destruct (workout_keyword text).
    + destruct (task_keyword text); [right|by left].
      unfold taskKeywords in *. rewrite !filter_cons, filter_nil in Ht.
      repeat constructor;
        match goal with
        | |- ?b = false => destruct b eqn:E; [|done]
        end; exfalso; revert Ht;
        repeat case_decide; try done; congruence.
    + destruct (project_keyword text); [done|].
      by destruct (learning_keyword text).
    + by destruct (project_keyword text).
    + by destruct (negative_keyword text).
    + destruct (negative_keyword text); [done|].
      by destruct (positive_keyword text).
  - intros (Hw & Hk & Ht & Hl & Hp & Hn & Hpos).
    rewrite (extractedData_eta (extract text)).
    rewrite habits_extract, mood_extract, paraCategory_extract, tasks_extract,
      scheduledItems_extract, insights_extract_nil by done.
    rewrite Hk, Hl, Hp, Hn, Hpos. unfold initial. f_equal.
    + destruct Ht as [->|Ht]; [done|]. destruct (task_keyword text); [|done].
      unfold taskKeywords in *.
      repeat match goal with
      | H : Forall _ (_ :: _) |- _ => apply Forall_cons in H as [? H]
      end.
      rewrite !filter_cons, filter_nil.
      repeat case_decide; try done; congruence.
    + f_equal. destruct Hw as [->| ->]; [done|]. by destruct (wake_keyword text).
Qed.

Lemma X14_nothing_found_witness :
  extract "went for a walk" = initial
  ∧ updatedData seed (extract "went for a walk") = spread seed.
Proof.
  destruct (X14_nothing_found "went for a walk" seed) as [[_ H1] H2].
  assert (extract "went for a walk" = initial) as H.
  { apply H1. repeat split; try reflexivity; left; reflexivity. }
  split; [exact H|exact (H2 H)].
Defined.

(* ===================================================================== *)
(** * The case of the text *)
(* ===================================================================== *)

Lemma lower_char_facts c :
  is_digit (lower_char c) = is_digit c
  ∧ is_space (lower_char c) = is_space c
  ∧ lower_char (lower_char c) = lower_char c
  ∧ Ascii.eqb (lower_char c) ":" = Ascii.eqb c ":".
Proof. destruct c as [[] [] [] [] [] [] [] []]; repeat split. Qed.

Lemma toLowerCase_idemp s : toLowerCase (toLowerCase s) = toLowerCase s.
Proof.
  induction s as [|c s IH]; [done|]. simpl.
  by rewrite IH, (proj1 (proj2 (proj2 (lower_char_facts c)))).
Qed.

Lemma ci_lower c x : ci (lower_char c) x = ci c x.
Proof. unfold ci. by rewrite (proj1 (proj2 (proj2 (lower_char_facts c)))). Qed.

Lemma colon_minutes_lower s : colon_minutes (toLowerCase s) = colon_minutes s.
Proof.
  destruct s as [|c [|m1 [|m2 s]]]; try done. simpl.
  by rewrite (proj2 (proj2 (proj2 (lower_char_facts c)))),
    (proj1 (lower_char_facts m1)), (proj1 (lower_char_facts m2)).
Qed.

Lemma meridiem_lower x s : meridiem x (toLowerCase s) = meridiem x s.
Proof. destruct s as [|a [|b s]]; try done. simpl. by rewrite !ci_lower. Qed.

Lemma spaces_lower (k : string → option nat) s :
  (∀ t, k (toLowerCase t) = k t) → spaces k (toLowerCase s) = spaces k s.
Proof.
  intros Hk. induction s as [|c s IH]; simpl.
  - apply (Hk EmptyString).
  - rewrite (proj1 (proj2 (lower_char_facts c))), IH.
    change (String (lower_char c) (toLowerCase s))
      with (toLowerCase (String c s)).
    by rewrite (Hk (String c s)).
Qed.

Lemma digits12_lower (k : string → option nat) s :
  (∀ t, k (toLowerCase t) = k t) → digits12 k (toLowerCase s) = digits12 k s.
Proof.
  intros Hk. destruct s as [|d1 [|d2 s]]; try done; simpl.
  - by rewrite (proj1 (lower_char_facts d1)), <- (Hk EmptyString).
  - rewrite (proj1 (lower_char_facts d1)), (proj1 (lower_char_facts d2)).
    change (String (lower_char d2) (toLowerCase s))
      with (toLowerCase (String d2 s)).
    by rewrite (Hk s), (Hk (String d2 s)).
Qed.

Lemma match_here_lower s : match_here (toLowerCase s) = match_here s.
Proof.
  unfold match_here.
  rewrite !digits12_lower; [done|..]; intros t;
    try apply colon_minutes_lower; apply spaces_lower, meridiem_lower.
Qed.

Lemma substring_lower n s :
  substring 0 n (toLowerCase s) = toLowerCase (substring 0 n s).
Proof.
  revert s. induction n as [|n IH]; intros [|c s]; try done.
  simpl. by rewrite IH.
Qed.

(** The [i] flag: the pattern finds in the lower-cased text the
    lower-cased literal it finds in the text. *)
Lemma time_match_lower text :
  time_match (toLowerCase text) = toLowerCase <$> time_match text.
Proof.
  induction text as [|c text IH]; [reflexivity|].
  rewrite (time_match_unfold (toLowerCase _)), (time_match_unfold (String _ _)).
  rewrite match_here_lower.
  destruct (match_here (String c text)) as [n|].
  - by rewrite substring_lower.
  - exact IH.
Qed.

(** X15: the case of the text matters to the wake time literal alone.  For
    two texts that are equal once lower-cased, the extractor finds the same
    tasks, mood, category and workout intent, and wake times that are
    equal once lower-cased. *)
Theorem X15_case_of_the_text (t1 t2 : string) :
  toLowerCase t1 = toLowerCase t2 →
  tasks (extract t1) = tasks (extract t2)
  ∧ mood (extract t1) = mood (extract t2)
  ∧ paraCategory (extract t1) = paraCategory (extract t2)
  ∧ workoutIntended (habits_of (extract t1))
    = workoutIntended (habits_of (extract t2))
  ∧ toLowerCase <$> wakeTime (habits_of (extract t1))
    = toLowerCase <$> wakeTime (habits_of (extract t2))
  ∧ length (insights (extract t1)) = length (insights (extract t2)).
Proof.
  intros H.
  assert (time_match (toLowerCase t1) = time_match (toLowerCase t2)) as Ht
    by by rewrite H.
  rewrite !time_match_lower in Ht.
  assert (wake_keyword t1 = wake_keyword t2) as Hw
    by (unfold wake_keyword, lowerText; by rewrite H).
  assert (workout_keyword t1 = workout_keyword t2) as Hk
    by (unfold workout_keyword, lowerText; by rewrite H).
  assert (learning_keyword t1 = learning_keyword t2) as Hl
    by (unfold learning_keyword, lowerText; by rewrite H).
  assert (project_keyword t1 = project_keyword t2) as Hp
    by (unfold project_keyword, lowerText; by rewrite H).
  rewrite !tasks_extract, !mood_extract, !paraCategory_extract, !habits_extract.
  cbn [workoutIntended wakeTime]. rewrite Hw, Hk, Hp, Hl.
  unfold task_keyword, negative_keyword, positive_keyword, lowerText.
  rewrite H. repeat split.
  - by destruct (wake_keyword t2).
  - unfold extract.
    rewrite !(proj1 (insights_mood_task_step _ _)).
    unfold project_step, learning_step.
    fold (project_keyword t1) (project_keyword t2)
      (learning_keyword t1) (learning_keyword t2).
    rewrite Hp, Hl.
    assert (length (insights (task_step t1 (workout_step t1 (wake_step t1 initial))))
            = length (insights (task_step t2 (workout_step t2 (wake_step t2 initial)))))
      as Hlen.
    { rewrite !(proj2 (insights_mood_task_step _ _)).
      unfold workout_step, wake_step, initial.
      fold (workout_keyword t1) (workout_keyword t2)
        (wake_keyword t1) (wake_keyword t2).
      rewrite Hw, Hk.
      destruct (time_match t1), (time_match t2); try done;
        destruct (workout_keyword t2), (wake_keyword t2); done. }
    destruct (project_keyword t2), (learning_keyword t2); cbn [insights];
      rewrite ?length_app; by rewrite Hlen.
Qed.

Lemma X15_case_of_the_text_witness :
  tasks (extract "I WAKE AT 7 AM, need to START") = tasks (extract "i wake at 7 am, need to start")
  ∧ toLowerCase <$> wakeTime (habits_of (extract "I WAKE AT 7 AM, need to START"))
    = toLowerCase <$> wakeTime (habits_of (extract "i wake at 7 am, need to start")).
Proof.
  destruct (X15_case_of_the_text "I WAKE AT 7 AM, need to START"
              "i wake at 7 am, need to start" eq_refl)
    as (H1 & _ & _ & _ & H5 & _).
  split; assumption.
Defined.

(* ===================================================================== *)
(** * Properties of the chatbot's handler *)
(* ===================================================================== *)

(** X16: what the handler leaves alone.  Of the record of the day it
    copies every field but [wakeTime], [workout], [mood] and [notes]; it
    leaves [mood] alone when the mood found is "neutral" and [notes] when
    there is no insight; and when a workout is intended, [workout] keeps
    its other fields and gets the status "intended". *)
Theorem X16_handler_frame (data : value) (p : extractedData) :
  (∀ k, k ≠ "wakeTime" → k ≠ "workout" → k ≠ "mood" → k ≠ "notes" →
     updatedData data p !! k = spread data !! k)
  ∧ (mood p = "neutral" → updatedData data p !! "mood" = spread data !! "mood")
  ∧ (insights p = [] → updatedData data p !! "notes" = spread data !! "notes")
  ∧ (workoutIntended (habits_of p) = Some true →
       ∃ wk, updatedData data p !! "workout" = Some (JObj wk)
         ∧ wk !! "status" = Some (JStr "intended")
         ∧ ∀ f, f ≠ "status" →
             wk !! f = from_option spread ∅ (spread data !! "workout") !! f).
Proof.
  unfold updatedData. repeat split.
  - intros k H1 H2 H3 H4.
    repeat case_match; rewrite ?lookup_insert_ne by done; reflexivity.
  - intros ->. cbn [String.eqb Ascii.eqb Bool.eqb].
    repeat case_match; rewrite ?lookup_insert_ne by done; reflexivity.
  - intros ->.
    repeat case_match; rewrite ?lookup_insert_ne by done; reflexivity.
  - intros ->.
    exists (<["status" := JStr "intended"]>
              (from_option spread ∅ (spread data !! "workout"))).
    split.
    + destruct (wakeTime (habits_of p)) as [[|c s]|];
        rewrite ?(lookup_insert_ne (spread data) "wakeTime" "workout") by done;
        repeat case_match; rewrite ?lookup_insert_ne by done;
        by rewrite lookup_insert_eq.
    + split; [by rewrite lookup_insert_eq|].
      intros f Hf. by rewrite lookup_insert_ne.
Qed.

Lemma X16_handler_frame_witness :
  updatedData seed (extract "gym tonight") !! "goals" = spread seed !! "goals"
  ∧ updatedData seed (extract "gym tonight") !! "mood" = spread seed !! "mood"
  ∧ ∃ wk, updatedData seed (extract "gym tonight") !! "workout" = Some (JObj wk)
      ∧ wk !! "status" = Some (JStr "intended")
      ∧ ∀ f, f ≠ "status" →
          wk !! f = from_option spread ∅ (spread seed !! "workout") !! f.
Proof.
  destruct (X16_handler_frame seed (extract "gym tonight")) as (H1 & H2 & _ & H4).
  split; [apply H1; discriminate|].
  split; [apply H2; reflexivity|].
  apply H4. reflexivity.
Defined.

Lemma app_empty_r s : s +:+ EmptyString = s.
Proof. induction s as [|c s IH]; [done|]. rewrite app_cons. by f_equal. Qed.

(** X17: notes are only added to.  When the day has notes [s], the notes
    the handler hands on begin with [s]: they are [s] when there is no
    insight, and otherwise [s], the two characters backslash and n when
    [s] is not empty, "AI Insights: ", and the insights joined by ", ". *)
Theorem X17_notes_appended (m : gmap string value) (s : string)
    (p : extractedData) :
  m !! "notes" = Some (JStr s) →
  updatedData (JObj m) p !! "notes"
  = Some (JStr (s +:+
       match insights p with
       | [] => EmptyString
       | _ :: _ =>
           (if String.eqb s EmptyString then EmptyString
            else String "\" (String "n" EmptyString))
           +:+ "AI Insights: " +:+ String.concat ", " (insights p)
       end)).
Proof.
  intros Hs. unfold updatedData. cbn [field spread]. rewrite Hs.
  destruct (insights p) as [|i rest].
  - rewrite app_empty_r.
    repeat case_match; rewrite ?lookup_insert_ne by done; exact Hs.
  - rewrite lookup_insert_eq. do 2 f_equal. cbn [truthy to_String].
    destruct s as [|c s]; [reflexivity|].
    cbn [String.eqb negb]. by rewrite !app_assoc_str.
Qed.

Lemma X17_notes_appended_witness :
  updatedData seed (extract "gym tonight") !! "notes"
  = Some (JStr ("Kickoff day. Establishing routine and dashboard."
                +:+ String "\" (String "n" EmptyString)
                +:+ "AI Insights: " +:+ "Workout activity detected")).
Proof.
  exact (X17_notes_appended (spread seed)
           "Kickoff day. Establishing routine and dashboard."
           (extract "gym tonight") eq_refl).
Defined.

(* ===================================================================== *)
(** * Properties of the quick edit form *)
(* ===================================================================== *)

Lemma truthy_js_or x y : truthy y = true → truthy (js_or x y) = true.
Proof. intros Hy. unfold js_or. destruct x as [v|]; [|done]. by destruct (truthy v) eqn:E. Qed.

(** X18: the form and the record.  A form whose fields are all truthy is
    the form shown for the record it submits.  The untouched form of any
    record submits truthy meal and workout times, so that, merged into
    any record, it leaves a day the dashboard does not show as empty, and
    its goals are the default goals. *)
Theorem X18_quick_edit (f : form) (data old : value)
    (ai : option extractedData) :
  (truthy (form_wakeTime f) = true → truthy (lunchTime f) = true →
   truthy (lunchDetails f) = true → truthy (dinnerTime f) = true →
   truthy (dinnerDetails f) = true → truthy (workoutTime f) = true →
   truthy (workoutStatus f) = true → truthy (form_notes f) = true →
   initialForm (submit f) = f)
  ∧ hasData (merge old (submit (initialForm data))) ai = true
  ∧ field (merge old (submit f)) "goals" = Some DEFAULT_GOALS.
Proof.
  split; [|split].
  - intros H1 H2 H3 H4 H5 H6 H7 H8. destruct f. simpl in *.
    unfold initialForm, submit, field2, field. simpl.
    repeat (rewrite ?lookup_insert_eq; rewrite ?lookup_insert_ne by done; simpl).
    by rewrite H1, H2, H3, H4, H5, H6, H7, H8.
  - unfold hasData, merge, submit, field2, field. cbn [spread].
    rewrite !(lookup_union_l' _ (spread old)).
    2-5: rewrite ?lookup_insert_ne by done; by rewrite lookup_insert_eq.
    repeat (rewrite ?lookup_insert_eq; rewrite ?lookup_insert_ne by done; simpl).
    cbn [initialForm lunchTime].
    rewrite (truthy_js_or _ (JStr "13:30")) by done.
    by rewrite !orb_true_r.
  - unfold merge, submit, field. cbn [spread].
    rewrite (lookup_union_l' _ (spread old)).
    2: rewrite ?lookup_insert_ne by done; by rewrite lookup_insert_eq.
    rewrite !lookup_insert_ne, lookup_insert_eq by done.
    unfold DEFAULT_GOALS. by rewrite merge_empty_object.
Qed.

Lemma X18_quick_edit_witness :
  initialForm (submit (initialForm seed)) = initialForm seed.
Proof.
  apply (X18_quick_edit (initialForm seed) seed seed None); reflexivity.
Defined.

(* ===================================================================== *)
(** * Properties of the tour and the theme *)
(* ===================================================================== *)

(** X19: the tour never leaves its steps.  Every handler of [App] keeps
    the step index within [TOUR_STEPS], so that the step the overlay reads
    is defined; [Next] on the last step and [Previous] on the first change
    nothing, and elsewhere [Previous] undoes the move of [Next]. *)
Theorem X19_tour_step_in_range (a : app) (page : string) :
  (tourStep a < length TOUR_STEPS)%nat →
  Forall (λ handler : app → app,
            (tourStep (handler a) < length TOUR_STEPS)%nat
            ∧ is_Some (TOUR_STEPS !! tourStep (handler a)))
    [startTour; startChatting; endTour; nextTourStep; prevTourStep;
     setActive page]
  ∧ (tourStep a = (length TOUR_STEPS - 1)%nat → nextTourStep a = a)
  ∧ (tourStep a = 0%nat → prevTourStep a = a)
  ∧ ((tourStep a < length TOUR_STEPS - 1)%nat →
       tourStep (prevTourStep (nextTourStep a)) = tourStep a
       ∧ isTouring (prevTourStep (nextTourStep a)) = isTouring a).
Proof.
  intros H. destruct a as [act touring step]. simpl in *.
  assert (∀ n, (n < 6)%nat → is_Some (TOUR_STEPS !! n)) as Hdef.
  { intros n Hn. apply lookup_lt_is_Some. simpl. lia. }
  repeat split.
  - assert (∀ b : app, (tourStep b < 6)%nat →
              (tourStep b < length TOUR_STEPS)%nat
              ∧ is_Some (TOUR_STEPS !! tourStep b)) as Hok.
    { intros b Hb. split; [simpl; lia|by apply Hdef]. }
    repeat apply Forall_cons_2; [..|apply Forall_nil_2]; apply Hok;
      unfold nextTourStep, prevTourStep; simpl; try lia.
    + destruct (step <? 5)%nat eqn:E; simpl; [|lia].
      apply Nat.ltb_lt in E. lia.
    + destruct step; simpl; lia.
  - intros ->. reflexivity.
  - intros ->. reflexivity.
  - unfold nextTourStep, prevTourStep. simpl.
    destruct (step <? 5)%nat eqn:E; [|apply Nat.ltb_ge in E; lia].
    simpl. replace (step + 1)%nat with (S step) by lia. simpl. lia.
  - unfold nextTourStep, prevTourStep. simpl.
    destruct (step <? 5)%nat eqn:E; [|apply Nat.ltb_ge in E; lia].
    simpl. replace (step + 1)%nat with (S step) by lia. reflexivity.
Qed.

Lemma X19_tour_step_in_range_witness :
  tourStep (prevTourStep (nextTourStep (startTour (App "landing" false 0))))
  = 0%nat.
Proof.
  destruct (X19_tour_step_in_range (startTour (App "landing" false 0))
              "dashboard") as (_ & _ & _ & H); [simpl; lia|].
  destruct H as [H _]; [simpl; lia|]. exact H.
Defined.

(** X20: the theme.  The toggle answers "light" or "dark" only, and on
    these two it is its own inverse.  A theme that was stored is the
    initial theme of the next visit unless it is empty, in which case, as
    when nothing was stored, the initial theme is "light"; storing the
    theme leaves every other item of [localStorage] as it was. *)
Theorem X20_theme (w : world) (theme : string) :
  (toggleTheme theme = "light" ∨ toggleTheme theme = "dark")
  ∧ (theme = "light" ∨ theme = "dark" → toggleTheme (toggleTheme theme) = theme)
  ∧ (initialTheme (storeTheme theme w).2).1
    = Ok (if String.eqb theme EmptyString then "light" else theme)
  ∧ (localStorage w !! "flowstate-theme" = None → (initialTheme w).1 = Ok "light")
  ∧ (∀ k, k ≠ "flowstate-theme" →
       localStorage (storeTheme theme w).2 !! k = localStorage w !! k).
Proof.
  repeat split.
  - unfold toggleTheme. destruct (String.eqb theme "light"); auto.
  - by intros [-> | ->].
  - unfold initialTheme, storeTheme, setItem, getItem, mbind, M_bind. simpl.
    by rewrite lookup_insert_eq.
  - intros H. unfold initialTheme, getItem, mbind, M_bind. simpl. by rewrite H.
  - intros k Hk. unfold storeTheme, setItem. simpl. by rewrite lookup_insert_ne.
Qed.

Lemma X20_theme_witness :
  toggleTheme (toggleTheme "dark") = "dark"
  ∧ (initialTheme fresh).1 = Ok "light"
  ∧ localStorage (storeTheme "dark" fresh).2 !! STORAGE_KEY
    = localStorage fresh !! STORAGE_KEY.
Proof.
  destruct (X20_theme fresh "dark") as (_ & H2 & _ & H4 & H5).
  split; [apply H2; by right|].
  split; [apply H4; reflexivity|].
  apply H5. discriminate.
Defined.

(* ===================================================================== *)
(** * Properties of the chatbot *)
(* ===================================================================== *)

(** The identifier of each message is its position, counted from one. *)
Lemma positions_NoDup (l : list message) :
  (∀ i m, l !! i = Some m → message_id m = S i) → NoDup (message_id <$> l).
Proof.
  intros H. apply NoDup_alt. intros i j x Hi Hj.
  apply list_lookup_fmap_Some in Hi as (mi & -> & Hi).
  apply list_lookup_fmap_Some in Hj as (mj & E & Hj).
  apply H in Hi, Hj. lia.
Qed.

(** X21: the conversation.  A text of white space alone changes nothing and
    hands nothing on.  Any other text adds two messages, the text as the
    user's and an answer that carries the extraction of the text, hands
    that extraction to [onProcess], and empties the input; when the
    identifier of each message was its position, it still is, so the
    identifiers, which are the keys of the list, stay distinct. *)
Theorem X21_conversation (c : chat) (text : string) (pick : nat) :
  (blank text = true → processMessage c text pick = (c, None))
  ∧ (blank text = false →
       ∃ user ai,
         messages (processMessage c text pick).1 = messages c ++ [user; ai]
         ∧ message_type user = "user" ∧ content user = Some text
         ∧ message_type ai = "ai" ∧ content ai = responses !! pick
         ∧ processedInfo ai = Some (extract text)
         ∧ (processMessage c text pick).2 = Some (extract text)
         ∧ input (processMessage c text pick).1 = EmptyString
         ∧ isProcessing (processMessage c text pick).1 = false
         ∧ ((∀ i m, messages c !! i = Some m → message_id m = S i) →
            (∀ i m, messages (processMessage c text pick).1 !! i = Some m →
               message_id m = S i)
            ∧ NoDup (message_id <$> messages (processMessage c text pick).1))).
Proof.
  unfold processMessage. split; intros ->; [done|].
  do 2 eexists. cbn [fst snd messages input isProcessing].
  split; [by rewrite <- app_assoc|].
  cbn [message_type content processedInfo simulateAIProcessing fst snd].
  do 8 (split; [done|]). intros Hpos.
  assert (∀ i m,
            ((messages c ++ [Message (length (messages c) + 1) "user" (Some text) None])
             ++ [Message (length (messages c) + 2) "ai" (responses !! pick)
                   (Some (extract text))]) !! i = Some m →
            message_id m = S i) as Hpos'.
  { intros i m.
    rewrite lookup_app_Some, lookup_app_Some, length_app.
    intros [[Hm|[Hi Hm]]|[Hi Hm]].
    - by apply Hpos.
    - apply list_lookup_singleton_Some in Hm as [Hz <-]. simpl. lia.
    - apply list_lookup_singleton_Some in Hm as [Hz <-]. simpl in *. lia. }
  split; [exact Hpos'|]. by apply positions_NoDup.
Qed.

Lemma X21_conversation_witness :
  ∃ user ai,
    messages (handleSubmit (Chat (messages initialChat) "gym tonight" false) 0).1
    = messages initialChat ++ [user; ai]
    ∧ processedInfo ai = Some (extract "gym tonight")
    ∧ NoDup (message_id <$>
               messages (handleSubmit
                           (Chat (messages initialChat) "gym tonight" false) 0).1).
Proof.
  destruct (X21_conversation (Chat (messages initialChat) "gym tonight" false)
              "gym tonight" 0) as [_ H].
  destruct (H eq_refl) as (user & ai & H1 & _ & _ & _ & _ & H6 & _ & _ & _ & H10).
  exists user, ai. split; [exact H1|]. split; [exact H6|].
  apply H10. intros [|[|i]] m; simpl; [intros [= <-]; reflexivity|done|done].
Defined.
